(** * Logical-cluster deletion controller (kcp)

    A shallow embedding of
    [pkg/reconciler/core/logicalclusterdeletion/logicalcluster_deletion_controller.go]:
    the informer event handler registered by [NewController], the worker
    step [processNextWorkItem], the reconcile function [process], the status
    patch [patchCondition] and the finalizer protocol [finalizeWorkspace].

    The controller talks to its collaborators (work queue, lister, deleter,
    kube / kcp / dynamic clients, the error sink) through interfaces.  Here
    every such call is an entry of a trace, and the answer of a collaborator
    is given by an environment that may look at the whole history of calls
    made so far. *)

From Stdlib Require Import ZArith Ascii String.
From stdpp Require Import base strings list gmap sorting.

Local Open Scope Z_scope.
Local Open Scope string_scope.
Local Open Scope list_scope.

(** ** Go integers and durations *)

Module Go.

(** Two's complement wrap-around of [int64] arithmetic. *)
Definition wrap64 (z : Z) : Z := (z + 2 ^ 63) `mod` 2 ^ 64 - 2 ^ 63.

Definition MaxInt64 : Z := 2 ^ 63 - 1.

(** [time.Second], in nanoseconds; a [time.Duration] is an [int64]. *)
Definition Second : Z := 1000000000.

(** [strings.SplitN(s, "/", 2)]: cut at the first slash, if any. *)
Fixpoint cut_slash (s : string) : option (string * string) :=
  match s with
  | EmptyString => None
  | String c rest =>
      if Ascii.eqb c "/"%char then Some (EmptyString, rest)
      else match cut_slash rest with
           | Some (a, b) => Some (String c a, b)
           | None => None
           end
  end.

Definition SplitN_slash_2 (s : string) : list string :=
  match cut_slash s with
  | Some (a, b) => [a; b]
  | None => [s]
  end.

End Go.

(** ** Errors *)

Inductive StatusReason :=
| StatusReasonNotFound
| StatusReasonConflict
| StatusReasonOther (reason : string).

(** The error values the controller distinguishes: API status errors
    ([apierrors.StatusError]), the deleter's typed
    [deletion.ResourcesRemainingError] (held by pointer), opaque errors, and
    errors built by [fmt.Errorf], which wrap their [%w] operand when it is
    not nil. *)
#[warnings="-register-all"]
Inductive error :=
| StatusError (reason : StatusReason) (msg : string)
| ResourcesRemainingError (Estimate : Z) (Message : string)
| errorString (msg : string)
| fmtError (format : string) (args : list string) (wrapped : option error).

(** [fmt.Errorf(format, args..., err)] with one [%w] verb. *)
Definition Errorf (format : string) (args : list string) (err : option error) : error :=
  fmtError format args err.

(** [errors.As(err, &estimate)] with [estimate] of type
    pointer to [deletion.ResourcesRemainingError]: the first such error on the
    unwrap chain. *)
Fixpoint errors_As_ResourcesRemaining (err : error) : option Z :=
  match err with
  | ResourcesRemainingError est _ => Some est
  | fmtError _ _ w =>
      match w with
      | Some inner => errors_As_ResourcesRemaining inner
      | None => None
      end
  | _ => None
  end.

(** [apierrors.IsNotFound]: the reason of the first API status on the
    unwrap chain is NotFound. *)
Fixpoint IsNotFound (err : error) : bool :=
  match err with
  | StatusError StatusReasonNotFound _ => true
  | fmtError _ _ w =>
      match w with
      | Some inner => IsNotFound inner
      | None => false
      end
  | _ => false
  end.

(** ** Objects *)

(** A [metav1.Time] as its instant, [0] being the zero time. *)
Definition Time := Z.

(** [IsZero] on a pointer to [metav1.Time]: nil or the zero instant. *)
Definition IsZero (t : option Time) : bool :=
  match t with
  | None => true
  | Some i => Z.eqb i 0
  end.

Inductive ConditionStatus := ConditionTrue | ConditionFalse | ConditionUnknown.

Record Condition := {
  cond_Type : string;
  cond_Status : ConditionStatus;
  cond_Severity : string;
  cond_LastTransitionTime : Time;
  cond_Reason : string;
  cond_Message : string;
}.

Record Owner := {
  owner_APIVersion : string;
  owner_Resource : string;
  owner_Name : string;
  owner_Namespace : string;
  owner_Cluster : string;
  owner_UID : string;
}.

Record LogicalCluster := {
  lc_Name : string;
  (** the logical cluster the object lives in, [logicalcluster.From] *)
  lc_Cluster : string;
  lc_UID : string;
  lc_ResourceVersion : string;
  lc_DeletionTimestamp : option Time;
  lc_Finalizers : list string;
  lc_Owner : option Owner;
  lc_DirectlyDeletable : bool;
  lc_Conditions : list Condition;
}.

Definition set_Finalizers (ws : LogicalCluster) (fs : list string) : LogicalCluster :=
  {| lc_Name := lc_Name ws;
     lc_Cluster := lc_Cluster ws;
     lc_UID := lc_UID ws;
     lc_ResourceVersion := lc_ResourceVersion ws;
     lc_DeletionTimestamp := lc_DeletionTimestamp ws;
     lc_Finalizers := fs;
     lc_Owner := lc_Owner ws;
     lc_DirectlyDeletable := lc_DirectlyDeletable ws;
     lc_Conditions := lc_Conditions ws |}.

(** The owner as the dynamic client sees it ([unstructured.Unstructured]):
    the metadata the controller reads or writes, and the rest of the
    content. *)
Record Unstructured := {
  obj_UID : string;
  obj_Finalizers : list string;
  obj_DeletionTimestamp : option Time;
  obj_Content : string;
}.

Definition SetFinalizers (obj : Unstructured) (fs : list string) : Unstructured :=
  {| obj_UID := obj_UID obj;
     obj_Finalizers := fs;
     obj_DeletionTimestamp := obj_DeletionTimestamp obj;
     obj_Content := obj_Content obj |}.

Record GroupVersionResource := {
  gvr_Group : string;
  gvr_Version : string;
  gvr_Resource : string;
}.

(** What an informer hands to an event handler ([interface{}]). *)
Inductive Object :=
| ObjLogicalCluster (lc : LogicalCluster)
| ObjOther (descr : string).

(** The two documents [patchCondition] marshals. *)
Record PatchDoc := {
  doc_UID : string;
  doc_ResourceVersion : string;
  doc_Conditions : list Condition;
}.

Global Instance ConditionStatus_eq_dec : EqDecision ConditionStatus.
Proof. solve_decision. Defined.

Global Instance Condition_eq_dec : EqDecision Condition.
Proof. solve_decision. Defined.

(** [equality.Semantic.DeepEqual] on two condition slices: times compare
    by instant, a nil and an empty slice are equal. *)
Definition Semantic_DeepEqual (a b : list Condition) : bool := bool_decide (a = b).

(** ** [sets.String] *)

Module sets.

(** [sets.NewString(items...)]. *)
Definition NewString (items : list string) : gset string := list_to_set items.

Definition Has (s : gset string) (item : string) : bool := bool_decide (item ∈ s).

Definition Delete (s : gset string) (item : string) : gset string := s ∖ {[ item ]}.

(** [List()]: the members, sorted with [sort.Strings] (byte-wise order). *)
Definition List (s : gset string) : list string := merge_sort String.le (elements s).

End sets.

(** ** Traces *)

Inductive Event :=
| QueueAdd (key : string)
| QueueGet (key : string) (quit : bool)
| QueueDone (key : string)
| QueueForget (key : string)
| QueueAddAfter (key : string) (duration : Z)
| QueueAddRateLimited (key : string)
| HandleError (err : error)
| ListerGet (cluster name : string) (res : LogicalCluster + error)
| DeleterDelete (ws ws' : LogicalCluster) (err : option error)
| LogicalClusterPatch (cluster name patch subresource : string) (err : option error)
| ClusterRolesDeleteCollection (cluster : string) (err : option error)
| ClusterRoleBindingsDeleteCollection (cluster : string) (err : option error)
| OwnerGet (cluster : string) (gvr : GroupVersionResource) (namespace name : string)
    (res : Unstructured + error)
| OwnerUpdate (cluster : string) (gvr : GroupVersionResource) (namespace : string)
    (obj : Unstructured) (res : Unstructured + error)
| OwnerDelete (cluster : string) (gvr : GroupVersionResource) (namespace name : string)
    (preconditionUID : string) (err : option error)
| LogicalClusterUpdate (cluster : string) (ws : LogicalCluster) (err : option error).

(** Oldest event first. *)
Abbreviation Trace := (list Event).

Definition is_QueueDone (ev : Event) : bool :=
  match ev with QueueDone _ => true | _ => false end.
Definition is_QueueAddAfter (ev : Event) : bool :=
  match ev with QueueAddAfter _ _ => true | _ => false end.
Definition is_LogicalClusterPatch (ev : Event) : bool :=
  match ev with LogicalClusterPatch _ _ _ _ _ => true | _ => false end.
Definition is_OwnerGet (ev : Event) : bool :=
  match ev with OwnerGet _ _ _ _ _ => true | _ => false end.
Definition is_OwnerUpdate (ev : Event) : bool :=
  match ev with OwnerUpdate _ _ _ _ _ => true | _ => false end.
Definition is_OwnerDelete (ev : Event) : bool :=
  match ev with OwnerDelete _ _ _ _ _ _ => true | _ => false end.
Definition is_LogicalClusterUpdate (ev : Event) : bool :=
  match ev with LogicalClusterUpdate _ _ _ => true | _ => false end.

(** Calls on the work queue other than [Get]. *)
Definition is_queue_write (ev : Event) : bool :=
  match ev with
  | QueueAdd _ | QueueDone _ | QueueForget _
  | QueueAddAfter _ _ | QueueAddRateLimited _ => true
  | _ => false
  end.

(** The calls of a trace that write to the queue, in order. *)
Definition queue_writes (t : Trace) : Trace :=
  filter (fun ev => is_queue_write ev = true) t.

(** How often [p] holds in a trace. *)
Definition count (p : Event -> bool) (t : Trace) : nat := length (filter (fun ev => p ev = true) t).

(** ** The collaborators

    The interfaces the controller is built from.  Each answers a call from
    the history of the calls made before it. *)

Class Env := {
  (** [workqueue.Get]: a key, or the shutdown signal *)
  queue_Get : Trace -> string * bool;
  (** [kcpcache.MetaClusterNamespaceKeyFunc] *)
  MetaClusterNamespaceKeyFunc : Object -> string + error;
  (** [kcpcache.SplitMetaClusterNamespaceKey]: cluster, namespace, name *)
  SplitMetaClusterNamespaceKey : string -> (string * string * string) + error;
  (** [logicalClusterLister.Cluster(c).Get(name)] *)
  lister_Get : Trace -> string -> string -> LogicalCluster + error;
  (** [deleter.Delete(ctx, ws)]; the deleter writes conditions into [ws] *)
  deleter_Delete : Trace -> LogicalCluster -> LogicalCluster * option error;
  json_Marshal : PatchDoc -> string + error;
  jsonpatch_CreateMergePatch : string -> string -> string + error;
  (** [LogicalClusters().Patch(ctx, name, MergePatchType, patch, opts, "status")] *)
  logicalclusters_Patch : Trace -> string -> string -> string -> string -> option error;
  clusterroles_DeleteCollection : Trace -> string -> option error;
  clusterrolebindings_DeleteCollection : Trace -> string -> option error;
  (** the dynamic client bound to the front proxy *)
  owner_Get : Trace -> string -> GroupVersionResource -> string -> string -> Unstructured + error;
  owner_Update : Trace -> string -> GroupVersionResource -> string -> Unstructured -> Unstructured + error;
  owner_Delete : Trace -> string -> GroupVersionResource -> string -> string -> string -> option error;
  logicalclusters_Update : Trace -> string -> LogicalCluster -> option error;
}.

(** [deletion.LogicalClusterDeletionFinalizer], the finalizer this
    controller owns on a LogicalCluster, and
    [corev1alpha1.LogicalClusterFinalizer], the finalizer a LogicalCluster
    holds on its owner: constants of other packages of the repository. *)
Class FinalizerNames := {
  LogicalClusterDeletionFinalizer : string;
  LogicalClusterFinalizer : string;
}.

(** ** A monad for code that calls collaborators

    A computation reads the history of calls made before it and yields its
    result with the calls it made itself. *)

Definition M (A : Type) : Type := Trace -> A * Trace.

Definition ret {A} (a : A) : M A := fun _ => (a, []).

Definition bind {A B} (m : M A) (f : A -> M B) : M B :=
  fun h =>
    let r1 := m h in
    let r2 := f (fst r1) (h ++ snd r1) in
    (fst r2, snd r1 ++ snd r2).

Definition emit (ev : Event) : M unit := fun _ => (tt, [ev]).

(** Ask a collaborator and log the call with its answer. *)
Definition call {A} (ask : Trace -> A) (log : A -> Event) : M A :=
  fun h => let a := ask h in (a, [log a]).

Declare Scope go_scope.
Delimit Scope go_scope with go.
Notation "x <- m ;; k" := (bind m (fun x => k))
  (at level 100, m at next level, right associativity) : go_scope.
Notation "m ;;; k" := (bind m (fun _ => k))
  (at level 100, right associativity) : go_scope.
Local Open Scope go_scope.

(** ** client-go event handlers

    [cache.ResourceEventHandlerFuncs] calls the function registered for a
    notification, if any; [cache.FilteringResourceEventHandler] puts a
    filter in front of a handler. *)

Record ResourceEventHandlerFuncs := {
  AddFunc : option (Object -> M unit);
  UpdateFunc : option (Object -> Object -> M unit);
  DeleteFunc : option (Object -> M unit);
}.

Module Funcs.

Definition OnAdd (r : ResourceEventHandlerFuncs) (obj : Object) : M unit :=
  match AddFunc r with
  | Some f => f obj
  | None => ret tt
  end.

Definition OnUpdate (r : ResourceEventHandlerFuncs) (oldObj newObj : Object) : M unit :=
  match UpdateFunc r with
  | Some f => f oldObj newObj
  | None => ret tt
  end.

Definition OnDelete (r : ResourceEventHandlerFuncs) (obj : Object) : M unit :=
  match DeleteFunc r with
  | Some f => f obj
  | None => ret tt
  end.

End Funcs.

Record FilteringResourceEventHandler := {
  FilterFunc : Object -> bool;
  Handler : ResourceEventHandlerFuncs;
}.

Module Filtering.

Definition OnAdd (r : FilteringResourceEventHandler) (obj : Object) : M unit :=
  if FilterFunc r obj then Funcs.OnAdd (Handler r) obj else ret tt.

(** An update is an update, an add or a delete for the handler behind
    the filter, by whether the filter takes the old and the new object. *)
Definition OnUpdate (r : FilteringResourceEventHandler) (oldObj newObj : Object) : M unit :=
  let newer := FilterFunc r newObj in
  let older := FilterFunc r oldObj in
  match newer, older with
  | true, true => Funcs.OnUpdate (Handler r) oldObj newObj
  | true, false => Funcs.OnAdd (Handler r) newObj
  | false, true => Funcs.OnDelete (Handler r) oldObj
  | false, false => ret tt
  end.

Definition OnDelete (r : FilteringResourceEventHandler) (obj : Object) : M unit :=
  if FilterFunc r obj then Funcs.OnDelete (Handler r) obj else ret tt.

End Filtering.

(** What the informer delivers. *)
Inductive Notification :=
| Added (obj : Object)
| Updated (oldObj newObj : Object)
| Deleted (obj : Object).

Definition deliver (r : FilteringResourceEventHandler) (n : Notification) : M unit :=
  match n with
  | Added obj => Filtering.OnAdd r obj
  | Updated oldObj newObj => Filtering.OnUpdate r oldObj newObj
  | Deleted obj => Filtering.OnDelete r obj
  end.

(** ** The controller *)

Section Controller.

Context {env : Env} {names : FinalizerNames}.

Definition enqueue (obj : Object) : M unit :=
  match MetaClusterNamespaceKeyFunc obj with
  | inr err => emit (HandleError err)
  | inl key => emit (QueueAdd key)
  end.

(** The handler [NewController] registers with the LogicalCluster
    informer. *)
Definition NewController_FilterFunc (obj : Object) : bool :=
  match obj with
  | ObjLogicalCluster lc => negb (IsZero (lc_DeletionTimestamp lc))
  | _ => false
  end.

Definition NewController_handler : FilteringResourceEventHandler :=
  {| FilterFunc := NewController_FilterFunc;
     Handler := {| AddFunc := Some (fun obj => enqueue obj);
                   UpdateFunc := Some (fun _ obj => enqueue obj);
                   DeleteFunc := None |} |}.

(** [t := estimate.Estimate/2 + 1; duration := time.Duration(t) * time.Second],
    in [int64] arithmetic, [Estimate] being an [int64] as a Duration is;
    Go's [/] truncates toward zero. *)
Definition requeue_seconds (estimate : Z) : Z := Go.wrap64 (estimate ÷ 2 + 1).

Definition requeue_duration (estimate : Z) : Z :=
  Go.wrap64 (requeue_seconds estimate * Go.Second).

Definition patchCondition (old new : LogicalCluster) : M (option error) :=
  if Semantic_DeepEqual (lc_Conditions old) (lc_Conditions new) then ret None
  else
    match json_Marshal {| doc_UID := ""; doc_ResourceVersion := "";
                              doc_Conditions := lc_Conditions old |} with
    | inr err =>
        ret (Some (Errorf "failed to Marshal old data for logical cluster %s: %w"
                     [lc_Name old] (Some err)))
    | inl oldData =>
        match json_Marshal {| doc_UID := lc_UID old;
                                  doc_ResourceVersion := lc_ResourceVersion old;
                                  doc_Conditions := lc_Conditions new |} with
        | inr err =>
            ret (Some (Errorf "failed to Marshal new data for logical cluster %s: %w"
                         [lc_Name new] (Some err)))
        | inl newData =>
            match jsonpatch_CreateMergePatch oldData newData with
            | inr err =>
                ret (Some (Errorf "failed to create patch for logical cluster %s: %w"
                             [lc_Name new] (Some err)))
            | inl patchBytes =>
                call (fun h => logicalclusters_Patch h (lc_Cluster new) (lc_Name new)
                                 patchBytes "status")
                     (LogicalClusterPatch (lc_Cluster new) (lc_Name new) patchBytes "status")
            end
        end
    end.

(** The index at which the loop of [finalizeWorkspace] finds the
    deletion finalizer: the first one that holds it. *)
Fixpoint finalizer_index (fs : list string) : option nat :=
  match fs with
  | [] => None
  | f :: rest =>
      if String.eqb f LogicalClusterDeletionFinalizer then Some 0%nat
      else match finalizer_index rest with
           | Some i => Some (S i)
           | None => None
           end
  end.

(** [append(fs[:i], fs[i+1:]...)] *)
Definition remove_at (i : nat) (fs : list string) : list string :=
  take i fs ++ drop (S i) fs.

(** The group-version-resource of the owner, from its [APIVersion]. *)
Definition owner_gvr (o : Owner) : GroupVersionResource :=
  match Go.SplitN_slash_2 (owner_APIVersion o) with
  | [g; v] => {| gvr_Group := g; gvr_Version := v; gvr_Resource := owner_Resource o |}
  | c :: _ => {| gvr_Group := ""; gvr_Version := c; gvr_Resource := owner_Resource o |}
  | [] => {| gvr_Group := ""; gvr_Version := ""; gvr_Resource := owner_Resource o |}
  end.

(** [if err := step; err != nil { return err }] followed by [rest]. *)
Definition and_then (step rest : M (option error)) : M (option error) :=
  r <- step ;;
  match r with
  | Some err => ret (Some err)
  | None => rest
  end.

(** [err != nil && !apierrors.IsNotFound(err)], and the error returned
    in that case. *)
Definition unless_NotFound (e : option error) (wrap : error -> error) : option error :=
  match e with
  | Some err => if negb (IsNotFound err) then Some (wrap err) else None
  | None => None
  end.

(** The errors [finalizeWorkspace] builds. *)
Definition clusterroles_error (clusterName : string) (err : error) : error :=
  Errorf "could not delete clusterroles for logical cluster %s: %w" [clusterName] (Some err).

Definition clusterrolebindings_error (clusterName : string) (err : error) : error :=
  Errorf "could not delete clusterrolebindings for logical cluster %s: %w" [clusterName]
    (Some err).

Definition owner_args (o : Owner) : list string :=
  [gvr_Resource (owner_gvr o); owner_Namespace o; owner_Name o; owner_Cluster o].

Definition owner_get_error (o : Owner) (err : error) : error :=
  Errorf "could not get owner %s %s/%s in cluster %s: %w" (owner_args o) (Some err).

(** Here [err] is nil: the error wraps nothing. *)
Definition owner_uid_error (o : Owner) : error :=
  Errorf "could not get owner %s %s/%s in cluster %s is of wrong UID: %w" (owner_args o) None.

Definition owner_update_error (o : Owner) (err : error) : error :=
  Errorf "could not remove finalizer from owner %s %s/%s in cluster %s: %w" (owner_args o)
    (Some err).

Definition owner_delete_error (o : Owner) (err : error) : error :=
  Errorf "could not delete owner %s %s/%s in cluster %s: %w" (owner_args o) (Some err).

Definition deleteClusterRoles (clusterName : string) : M (option error) :=
  e <- call (fun h => clusterroles_DeleteCollection h clusterName)
            (ClusterRolesDeleteCollection clusterName) ;;
  ret (unless_NotFound e (clusterroles_error clusterName)).

Definition deleteClusterRoleBindings (clusterName : string) : M (option error) :=
  e <- call (fun h => clusterrolebindings_DeleteCollection h clusterName)
            (ClusterRoleBindingsDeleteCollection clusterName) ;;
  ret (unless_NotFound e (clusterrolebindings_error clusterName)).

(** [finalizers.Delete(LogicalClusterFinalizer); obj.SetFinalizers(finalizers.List())] *)
Definition strip_owner_finalizer (obj : Unstructured) : Unstructured :=
  let finalizers := sets.NewString (obj_Finalizers obj) in
  let finalizers := sets.Delete finalizers LogicalClusterFinalizer in
  SetFinalizers obj (sets.List finalizers).

(** [if obj.GetDeletionTimestamp().IsZero() && ws.Spec.DirectlyDeletable]:
    delete the owner, under the precondition of its UID. *)
Definition deleteOwner (ws : LogicalCluster) (o : Owner) (obj : Unstructured)
    : M (option error) :=
  if IsZero (obj_DeletionTimestamp obj) && lc_DirectlyDeletable ws
  then
    e <- call (fun h => owner_Delete h (owner_Cluster o) (owner_gvr o) (owner_Namespace o)
                          (owner_Name o) (owner_UID o))
              (OwnerDelete (owner_Cluster o) (owner_gvr o) (owner_Namespace o) (owner_Name o)
                 (owner_UID o)) ;;
    ret (unless_NotFound e (owner_delete_error o))
  else ret None.

(** The branch [if ws.Spec.Owner != nil] of [finalizeWorkspace]. *)
Definition finalizeOwner (ws : LogicalCluster) (o : Owner) : M (option error) :=
  let gvr := owner_gvr o in
  let uid := owner_UID o in
  let clusterPath := owner_Cluster o in
  r <- call (fun h => owner_Get h clusterPath gvr (owner_Namespace o) (owner_Name o))
            (OwnerGet clusterPath gvr (owner_Namespace o) (owner_Name o)) ;;
  match r with
  | inr err => ret (unless_NotFound (Some err) (owner_get_error o))
  | inl obj =>
      if negb (String.eqb (obj_UID obj) uid)
      then ret (Some (owner_uid_error o))
      else
        let finalizers := sets.NewString (obj_Finalizers obj) in
        if sets.Has finalizers LogicalClusterFinalizer
        then
          let obj := strip_owner_finalizer obj in
          r <- call (fun h => owner_Update h clusterPath gvr (owner_Namespace o) obj)
                    (OwnerUpdate clusterPath gvr (owner_Namespace o) obj) ;;
          match r with
          | inr err => ret (Some (owner_update_error o err))
          | inl obj => deleteOwner ws o obj
          end
        else deleteOwner ws o obj
  end.

(** The last step of [finalizeWorkspace]: persist the finalizers. *)
Definition updateLogicalCluster (ws : LogicalCluster) : M (option error) :=
  call (fun h => logicalclusters_Update h (lc_Cluster ws) ws)
       (LogicalClusterUpdate (lc_Cluster ws) ws).

Definition finalizeWorkspace (ws : LogicalCluster) : M (option error) :=
  match finalizer_index (lc_Finalizers ws) with
  | None => ret None
  | Some i =>
      let ws := set_Finalizers ws (remove_at i (lc_Finalizers ws)) in
      let clusterName := lc_Cluster ws in
      and_then (deleteClusterRoles clusterName)
     (and_then (deleteClusterRoleBindings clusterName)
     (and_then (match lc_Owner ws with
                | Some o => finalizeOwner ws o
                | None => ret None
                end)
               (updateLogicalCluster ws)))
  end.

Definition process (key : string) : M (option error) :=
  match SplitMetaClusterNamespaceKey key with
  | inr err => emit (HandleError err) ;;; ret None
  | inl (clusterName, _, name) =>
      r <- call (fun h => lister_Get h clusterName name) (ListerGet clusterName name) ;;
      match r with
      | inr deleteErr =>
          if IsNotFound deleteErr then ret None
          else
            emit (HandleError
                    (Errorf "unable to retrieve logical cluster %v from store: %w"
                       [key] (Some deleteErr))) ;;;
            ret (Some deleteErr)
      | inl logicalCluster =>
          if IsZero (lc_DeletionTimestamp logicalCluster) then ret None
          else
            let logicalClusterCopy := logicalCluster in
            d <- call (fun h => deleter_Delete h logicalClusterCopy)
                      (fun d => DeleterDelete logicalClusterCopy (fst d) (snd d)) ;;
            let logicalClusterCopy := fst d in
            match snd d with
            | None => finalizeWorkspace logicalClusterCopy
            | Some deleteErr =>
                and_then (patchCondition logicalCluster logicalClusterCopy)
                         (ret (Some deleteErr))
            end
      end
  end.

Definition processNextWorkItem : M bool :=
  g <- call (queue_Get) (fun g => QueueGet (fst g) (snd g)) ;;
  if snd g then ret false
  else
    let key := fst g in
    err <- process key ;;
    match err with
    | None =>
        emit (QueueForget key) ;;;
        emit (QueueDone key) ;;;
        ret true
    | Some err =>
        match errors_As_ResourcesRemaining err with
        | Some estimate =>
            emit (QueueAddAfter key (requeue_duration estimate))
        | None =>
            emit (QueueAddRateLimited key) ;;;
            emit (HandleError (Errorf "deletion of logical cluster %v failed: %w"
                                 [key] (Some err)))
        end ;;;
        emit (QueueDone key) ;;;
        ret true
    end.

End Controller.

(** ** The runs of [finalizeWorkspace]

    The paths through [finalizeWorkspace], each with the error it returns
    and the calls it makes, whatever the collaborators answer. *)

Section Runs.

Context {names : FinalizerNames}.

(** The guarded delete of the owner, for the owner object [obj] at hand. *)
Inductive delete_run (ws : LogicalCluster) (o : Owner) (obj : Unstructured)
    : option error -> Trace -> Prop :=
| delete_skipped :
    IsZero (obj_DeletionTimestamp obj) && lc_DirectlyDeletable ws = false ->
    delete_run ws o obj None []
| delete_issued e :
    IsZero (obj_DeletionTimestamp obj) && lc_DirectlyDeletable ws = true ->
    delete_run ws o obj (unless_NotFound e (owner_delete_error o))
      [OwnerDelete (owner_Cluster o) (owner_gvr o) (owner_Namespace o) (owner_Name o)
         (owner_UID o) e].

Inductive owner_run (ws : LogicalCluster) (o : Owner) : option error -> Trace -> Prop :=
| owner_get_failed err :
    owner_run ws o (unless_NotFound (Some err) (owner_get_error o))
      [OwnerGet (owner_Cluster o) (owner_gvr o) (owner_Namespace o) (owner_Name o) (inr err)]
| owner_replaced obj :
    obj_UID obj ≠ owner_UID o ->
    owner_run ws o (Some (owner_uid_error o))
      [OwnerGet (owner_Cluster o) (owner_gvr o) (owner_Namespace o) (owner_Name o) (inl obj)]
| owner_update_failed obj err :
    obj_UID obj = owner_UID o ->
    LogicalClusterFinalizer ∈ obj_Finalizers obj ->
    owner_run ws o (Some (owner_update_error o err))
      [OwnerGet (owner_Cluster o) (owner_gvr o) (owner_Namespace o) (owner_Name o) (inl obj);
       OwnerUpdate (owner_Cluster o) (owner_gvr o) (owner_Namespace o)
         (strip_owner_finalizer obj) (inr err)]
| owner_updated obj obj' res t :
    obj_UID obj = owner_UID o ->
    LogicalClusterFinalizer ∈ obj_Finalizers obj ->
    delete_run ws o obj' res t ->
    owner_run ws o res
      (OwnerGet (owner_Cluster o) (owner_gvr o) (owner_Namespace o) (owner_Name o) (inl obj)
       :: OwnerUpdate (owner_Cluster o) (owner_gvr o) (owner_Namespace o)
            (strip_owner_finalizer obj) (inl obj')
       :: t)
| owner_kept obj res t :
    obj_UID obj = owner_UID o ->
    LogicalClusterFinalizer ∉ obj_Finalizers obj ->
    delete_run ws o obj res t ->
    owner_run ws o res
      (OwnerGet (owner_Cluster o) (owner_gvr o) (owner_Namespace o) (owner_Name o) (inl obj)
       :: t).

(** The owner step let the finalization go on, with the calls [t]. *)
Definition owner_passed (ws : LogicalCluster) (t : Trace) : Prop :=
  match lc_Owner ws with
  | Some o => owner_run ws o None t
  | None => t = []
  end.

Inductive finalize_run (ws : LogicalCluster) : option error -> Trace -> Prop :=
| finalize_nothing :
    finalizer_index (lc_Finalizers ws) = None ->
    finalize_run ws None []
| finalize_roles_failed i e err :
    finalizer_index (lc_Finalizers ws) = Some i ->
    unless_NotFound e (clusterroles_error (lc_Cluster ws)) = Some err ->
    finalize_run ws (Some err) [ClusterRolesDeleteCollection (lc_Cluster ws) e]
| finalize_bindings_failed i e1 e2 err :
    finalizer_index (lc_Finalizers ws) = Some i ->
    unless_NotFound e1 (clusterroles_error (lc_Cluster ws)) = None ->
    unless_NotFound e2 (clusterrolebindings_error (lc_Cluster ws)) = Some err ->
    finalize_run ws (Some err)
      [ClusterRolesDeleteCollection (lc_Cluster ws) e1;
       ClusterRoleBindingsDeleteCollection (lc_Cluster ws) e2]
| finalize_owner_failed i e1 e2 o err t :
    finalizer_index (lc_Finalizers ws) = Some i ->
    unless_NotFound e1 (clusterroles_error (lc_Cluster ws)) = None ->
    unless_NotFound e2 (clusterrolebindings_error (lc_Cluster ws)) = None ->
    lc_Owner ws = Some o ->
    owner_run (set_Finalizers ws (remove_at i (lc_Finalizers ws))) o (Some err) t ->
    finalize_run ws (Some err)
      (ClusterRolesDeleteCollection (lc_Cluster ws) e1
       :: ClusterRoleBindingsDeleteCollection (lc_Cluster ws) e2
       :: t)
| finalize_persisted i e1 e2 t res :
    finalizer_index (lc_Finalizers ws) = Some i ->
    unless_NotFound e1 (clusterroles_error (lc_Cluster ws)) = None ->
    unless_NotFound e2 (clusterrolebindings_error (lc_Cluster ws)) = None ->
    owner_passed (set_Finalizers ws (remove_at i (lc_Finalizers ws))) t ->
    finalize_run ws res
      (ClusterRolesDeleteCollection (lc_Cluster ws) e1
       :: ClusterRoleBindingsDeleteCollection (lc_Cluster ws) e2
       :: t
       ++ [LogicalClusterUpdate (lc_Cluster ws)
             (set_Finalizers ws (remove_at i (lc_Finalizers ws))) res]).

End Runs.

(** The calls a failed step of [finalizeWorkspace] shows in the trace, with
    the error of the collaborator: a failed cleanup of ClusterRoles or
    ClusterRoleBindings, a failed Get, Update or Delete of the owner.  A
    not-found error fails the Update only. *)
Definition failed_step (ev : Event) : option error :=
  match ev with
  | ClusterRolesDeleteCollection _ (Some err)
  | ClusterRoleBindingsDeleteCollection _ (Some err)
  | OwnerGet _ _ _ _ (inr err)
  | OwnerDelete _ _ _ _ _ (Some err) => if IsNotFound err then None else Some err
  | OwnerUpdate _ _ _ _ (inr err) => Some err
  | _ => None
  end.

(** Neither the owner nor the LogicalCluster is written. *)
Definition writes_nothing (ev : Event) : Prop :=
  is_OwnerUpdate ev = false ∧ is_OwnerDelete ev = false ∧ is_LogicalClusterUpdate ev = false.

(** ** A scenario to run the controller on

    The end-to-end scenario: a LogicalCluster under deletion whose owner is
    the widget [w1] with UID [abc] in cluster [shardB], and collaborators
    whose answers are fixed. *)

Module Scenario.

Definition names : FinalizerNames :=
  {| LogicalClusterDeletionFinalizer := "core.kcp.io/logicalcluster-deletion";
     LogicalClusterFinalizer := "core.kcp.io/logicalcluster" |}.

Definition owner : Owner :=
  {| owner_APIVersion := "example.io/v1";
     owner_Resource := "widgets";
     owner_Name := "w1";
     owner_Namespace := "";
     owner_Cluster := "shardB";
     owner_UID := "abc" |}.

Definition gvr : GroupVersionResource :=
  {| gvr_Group := "example.io"; gvr_Version := "v1"; gvr_Resource := "widgets" |}.

Definition cluster (finalizers : list string) (o : option Owner) : LogicalCluster :=
  {| lc_Name := "cluster";
     lc_Cluster := "root:org:ws";
     lc_UID := "lc-uid";
     lc_ResourceVersion := "7";
     lc_DeletionTimestamp := Some 1700000000;
     lc_Finalizers := finalizers;
     lc_Owner := o;
     lc_DirectlyDeletable := true;
     lc_Conditions := [] |}.

Definition ws : LogicalCluster := cluster ["a"; "core.kcp.io/logicalcluster-deletion"; "b"] (Some owner).

Definition widget (uid : string) (finalizers : list string) (deleted : option Time)
    : Unstructured :=
  {| obj_UID := uid;
     obj_Finalizers := finalizers;
     obj_DeletionTimestamp := deleted;
     obj_Content := "spec" |}.

Definition w1 : Unstructured := widget "abc" ["z"; "core.kcp.io/logicalcluster"; "m"] None.

Definition waiting : Condition :=
  {| cond_Type := "WorkspaceContentDeleted";
     cond_Status := ConditionFalse;
     cond_Severity := "Info";
     cond_LastTransitionTime := 1700000001;
     cond_Reason := "SomeResourcesRemain";
     cond_Message := "waiting for 9 resources" |}.

Definition set_Conditions (l : LogicalCluster) (cs : list Condition) : LogicalCluster :=
  {| lc_Name := lc_Name l;
     lc_Cluster := lc_Cluster l;
     lc_UID := lc_UID l;
     lc_ResourceVersion := lc_ResourceVersion l;
     lc_DeletionTimestamp := lc_DeletionTimestamp l;
     lc_Finalizers := lc_Finalizers l;
     lc_Owner := lc_Owner l;
     lc_DirectlyDeletable := lc_DirectlyDeletable l;
     lc_Conditions := cs |}.

Definition key : string := "root:org:ws|cluster".

Definition notFound : error := StatusError StatusReasonNotFound "not found".
Definition conflict : error := StatusError StatusReasonConflict "object has been modified".

(** Collaborators with fixed answers: the lister holds [stored], the
    deleter answers [drain], and every client call answers as given. *)
Definition world
    (stored : LogicalCluster + error)
    (drain : LogicalCluster -> LogicalCluster * option error)
    (patch roles bindings : option error)
    (get : Unstructured + error)
    (update : Unstructured -> Unstructured + error)
    (delete persist : option error) : Env :=
  {| queue_Get := fun _ => (key, false);
     MetaClusterNamespaceKeyFunc := fun obj =>
       match obj with
       | ObjLogicalCluster l => inl (lc_Cluster l +:+ "|" +:+ lc_Name l)
       | ObjOther _ => inr (errorString "object has no meta")
       end;
     SplitMetaClusterNamespaceKey := fun _ => inl ("root:org:ws", "", "cluster");
     lister_Get := fun _ _ _ => stored;
     deleter_Delete := fun _ l => drain l;
     json_Marshal := fun _ => inl "{}";
     jsonpatch_CreateMergePatch := fun _ _ => inl "{}";
     logicalclusters_Patch := fun _ _ _ _ _ => patch;
     clusterroles_DeleteCollection := fun _ _ => roles;
     clusterrolebindings_DeleteCollection := fun _ _ => bindings;
     owner_Get := fun _ _ _ _ _ => get;
     owner_Update := fun _ _ _ _ obj => update obj;
     owner_Delete := fun _ _ _ _ _ _ => delete;
     logicalclusters_Update := fun _ _ _ => persist |}.

(** Everything succeeds. *)
Definition drained (l : LogicalCluster) : LogicalCluster * option error := (l, None).

Definition calm : Env :=
  world (inl ws) drained None None None (inl w1) inl None None.

(** The deleter reports remaining content and writes a condition. *)
Definition remaining (estimate : Z) (l : LogicalCluster) : LogicalCluster * option error :=
  (set_Conditions l [waiting], Some (ResourcesRemainingError estimate "resources remain")).

Definition draining : Env :=
  world (inl ws) (remaining 9) None None None (inl w1) inl None None.

(** As [draining], but the patch of the conditions meets a conflict. *)
Definition starved : Env :=
  world (inl ws) (remaining 9) (Some conflict) None None (inl w1) inl None None.

(** The owner was deleted and created again: [w1] has another UID. *)
Definition replaced : Env :=
  world (inl ws) drained None None None
    (inl (widget "xyz" ["core.kcp.io/logicalcluster"] None)) inl None None.

(** The Update of the owner meets a conflict. *)
Definition stale : Env :=
  world (inl ws) drained None None None (inl w1) (fun _ => inr conflict) None None.

(** The cleanup of the ClusterRoleBindings fails. *)
Definition blocked : Env :=
  world (inl ws) drained None None (Some conflict) (inl w1) inl None None.


(** The lister does not know the LogicalCluster any more. *)
Definition forgotten : Env :=
  world (inr notFound) drained None None None (inl w1) inl None None.

End Scenario.


(** ** The worker loop *)

Section Loop.

Context {env : Env} {names : FinalizerNames}.

(** [startWorker]: [for c.processNextWorkItem(ctx) {}].  The loop goes on
    until the queue shuts down; [fuel] bounds the number of turns. *)
Fixpoint startWorker (fuel : nat) : M unit :=
  match fuel with
  | O => ret tt
  | S fuel =>
      more <- processNextWorkItem ;;
      if more then startWorker fuel else ret tt
  end.

End Loop.

(** ** Kinds of calls *)

(** [Get] handed out [key]. *)
Definition is_taken (key : string) (ev : Event) : bool :=
  match ev with
  | QueueGet k false => String.eqb k key
  | _ => false
  end.

(** [Done(key)]. *)
Definition is_done (key : string) (ev : Event) : bool :=
  match ev with
  | QueueDone k => String.eqb k key
  | _ => false
  end.

(** [Get] reported the shutdown of the queue. *)
Definition is_shutdown (ev : Event) : bool :=
  match ev with
  | QueueGet _ true => true
  | _ => false
  end.

Definition is_QueueGet (ev : Event) : bool :=
  match ev with QueueGet _ _ => true | _ => false end.
Definition is_DeleterDelete (ev : Event) : bool :=
  match ev with DeleterDelete _ _ _ => true | _ => false end.

(** The calls of [finalizeWorkspace]: on the kube client, the front proxy
    and the kcp client. *)
Definition is_finalize_call (ev : Event) : bool :=
  match ev with
  | ClusterRolesDeleteCollection _ _ | ClusterRoleBindingsDeleteCollection _ _
  | OwnerGet _ _ _ _ _ | OwnerUpdate _ _ _ _ _ | OwnerDelete _ _ _ _ _ _
  | LogicalClusterUpdate _ _ _ => true
  | _ => false
  end.

(** The calls on the front proxy, for the owner. *)
Definition is_owner_call (ev : Event) : bool :=
  is_OwnerGet ev || is_OwnerUpdate ev || is_OwnerDelete ev.

(** Where a call on the front proxy goes: cluster, resource and namespace. *)
Definition owner_call_target (ev : Event) : option (string * GroupVersionResource * string) :=
  match ev with
  | OwnerGet c g ns _ _ | OwnerUpdate c g ns _ _ | OwnerDelete c g ns _ _ _ => Some (c, g, ns)
  | _ => None
  end.

(** The place of a call in a run of [finalizeWorkspace]. *)
Definition finalize_phase (ev : Event) : nat :=
  match ev with
  | ClusterRolesDeleteCollection _ _ => 1
  | ClusterRoleBindingsDeleteCollection _ _ => 2
  | OwnerGet _ _ _ _ _ => 3
  | OwnerUpdate _ _ _ _ _ => 4
  | OwnerDelete _ _ _ _ _ _ => 5
  | LogicalClusterUpdate _ _ _ => 6
  | _ => 0
  end.

(** The calls with which [processNextWorkItem] ends, by the outcome of
    [process]. *)
Definition settle_key (key : string) (outcome : option error) : Trace :=
  match outcome with
  | None => [QueueForget key; QueueDone key]
  | Some err =>
      match errors_As_ResourcesRemaining err with
      | Some estimate => [QueueAddAfter key (requeue_duration estimate); QueueDone key]
      | None =>
          [QueueAddRateLimited key;
           HandleError (Errorf "deletion of logical cluster %v failed: %w" [key] (Some err));
           QueueDone key]
      end
  end.

(** ** More scenarios *)

Module Cases.

Import Scenario.

(** The lister fails, and not with not-found. *)
Definition unreachable : Env :=
  world (inr conflict) drained None None None (inl w1) inl None None.

(** The collaborators of [calm] behind a queue that hands out the key once
    and then shuts down. *)
Definition closing : Env :=
  {| queue_Get := fun h => match h with [] => (key, false) | _ => ("", true) end;
     MetaClusterNamespaceKeyFunc := @MetaClusterNamespaceKeyFunc calm;
     SplitMetaClusterNamespaceKey := @SplitMetaClusterNamespaceKey calm;
     lister_Get := @lister_Get calm;
     deleter_Delete := @deleter_Delete calm;
     json_Marshal := @json_Marshal calm;
     jsonpatch_CreateMergePatch := @jsonpatch_CreateMergePatch calm;
     logicalclusters_Patch := @logicalclusters_Patch calm;
     clusterroles_DeleteCollection := @clusterroles_DeleteCollection calm;
     clusterrolebindings_DeleteCollection := @clusterrolebindings_DeleteCollection calm;
     owner_Get := @owner_Get calm;
     owner_Update := @owner_Update calm;
     owner_Delete := @owner_Delete calm;
     logicalclusters_Update := @logicalclusters_Update calm |}.

End Cases.


(** * Properties *)

(** Membership in a trace that is written out. *)
Ltac in_trace :=
  solve [repeat first [apply list_elem_of_here | apply list_elem_of_further]].

(** ** The monad *)

Section Monad.

Context {A B : Type}.

Lemma bind_run (m : M A) (f : A -> M B) h :
  bind m f h = (fst (f (fst (m h)) (h ++ snd (m h))),
                snd (m h) ++ snd (f (fst (m h)) (h ++ snd (m h)))).
Proof. reflexivity. Qed.

End Monad.

Section Finalization.

Context {env : Env} {names : FinalizerNames}.

Lemma and_then_run (step rest : M (option error)) h :
  and_then step rest h =
    match fst (step h) with
    | Some err => (Some err, snd (step h))
    | None => (fst (rest (h ++ snd (step h))), snd (step h) ++ snd (rest (h ++ snd (step h))))
    end.
Proof.
  unfold and_then. rewrite bind_run.
  destruct (fst (step h)); cbn [ret fst snd]; by rewrite ?app_nil_r.
Qed.

Lemma deleteOwner_run ws o obj h :
  delete_run ws o obj (fst (deleteOwner ws o obj h)) (snd (deleteOwner ws o obj h)).
Proof.
  unfold deleteOwner.
  destruct (IsZero (obj_DeletionTimestamp obj) && lc_DirectlyDeletable ws) eqn:Hguard.
  - cbn. by apply delete_issued.
  - cbn. by apply delete_skipped.
Qed.

Lemma finalizeOwner_run ws o h :
  owner_run ws o (fst (finalizeOwner ws o h)) (snd (finalizeOwner ws o h)).
Proof.
  unfold finalizeOwner. rewrite bind_run. cbn [call fst snd].
  destruct (owner_Get h _ _ _ _) as [obj|err].
  - destruct (String.eqb_spec (obj_UID obj) (owner_UID o)) as [Huid|Huid]; cbn [negb].
    + unfold sets.Has, sets.NewString. case_bool_decide as Hin.
      * rewrite elem_of_list_to_set in Hin. rewrite bind_run. cbn [call fst snd].
        destruct (owner_Update _ _ _ _ _) as [obj'|err].
        -- cbn [app]. apply owner_updated; [done..|]. apply deleteOwner_run.
        -- cbn. by apply owner_update_failed.
      * rewrite elem_of_list_to_set in Hin. cbn [app].
        apply owner_kept; [done..|]. apply deleteOwner_run.
    + cbn. by apply owner_replaced.
  - cbn [ret fst snd app]. apply owner_get_failed.
Qed.

Lemma deleteClusterRoles_run c h :
  deleteClusterRoles c h =
    (unless_NotFound (clusterroles_DeleteCollection h c) (clusterroles_error c),
     [ClusterRolesDeleteCollection c (clusterroles_DeleteCollection h c)]).
Proof. reflexivity. Qed.

Lemma deleteClusterRoleBindings_run c h :
  deleteClusterRoleBindings c h =
    (unless_NotFound (clusterrolebindings_DeleteCollection h c) (clusterrolebindings_error c),
     [ClusterRoleBindingsDeleteCollection c (clusterrolebindings_DeleteCollection h c)]).
Proof. reflexivity. Qed.

Lemma updateLogicalCluster_run ws h :
  updateLogicalCluster ws h =
    (logicalclusters_Update h (lc_Cluster ws) ws,
     [LogicalClusterUpdate (lc_Cluster ws) ws (logicalclusters_Update h (lc_Cluster ws) ws)]).
Proof. reflexivity. Qed.

Lemma finalizeWorkspace_run ws h :
  finalize_run ws (fst (finalizeWorkspace ws h)) (snd (finalizeWorkspace ws h)).
Proof.
  unfold finalizeWorkspace.
  destruct (finalizer_index (lc_Finalizers ws)) as [i|] eqn:Hi; [|by apply finalize_nothing].
  cbn zeta. set (ws' := set_Finalizers ws _).
  change (lc_Cluster ws') with (lc_Cluster ws). change (lc_Owner ws') with (lc_Owner ws).
  rewrite and_then_run, deleteClusterRoles_run. cbn [fst snd].
  set (e1 := clusterroles_DeleteCollection h _).
  destruct (unless_NotFound e1 _) as [err|] eqn:H1.
  { by eapply finalize_roles_failed. }
  rewrite and_then_run, deleteClusterRoleBindings_run. cbn [fst snd].
  set (e2 := clusterrolebindings_DeleteCollection _ _).
  destruct (unless_NotFound e2 _) as [err|] eqn:H2.
  { by eapply finalize_bindings_failed. }
  rewrite and_then_run, updateLogicalCluster_run. cbn [fst snd app].
  set (h2 := (h ++ _) ++ _).
  destruct (lc_Owner ws) as [o|] eqn:Ho.
  - pose proof (finalizeOwner_run ws' o h2) as Hrun.
    destruct (fst (finalizeOwner ws' o h2)) as [err|].
    + by eapply (finalize_owner_failed ws i e1 e2 o).
    + cbn [fst snd]. eapply (finalize_persisted ws i e1 e2); try done.
      unfold owner_passed, ws'. cbn [lc_Owner set_Finalizers]. rewrite Ho. exact Hrun.
  - cbn [ret fst snd app]. eapply (finalize_persisted ws i e1 e2 []); try done.
    unfold owner_passed, ws'. cbn [lc_Owner set_Finalizers]. by rewrite Ho.
Qed.


(** Case analysis on the run of [finalizeWorkspace]. *)
Ltac invert_runs :=
  repeat match goal with
    | H : finalize_run _ _ _ |- _ => inversion H; clear H; subst
    | H : owner_passed _ _ |- _ => unfold owner_passed in H; cbn [lc_Owner set_Finalizers] in H
    | H : match lc_Owner ?ws with _ => _ end |- _ => destruct (lc_Owner ws) eqn:?
    | H : owner_run _ _ _ _ |- _ => inversion H; clear H; subst
    | H : delete_run _ _ _ _ _ |- _ => inversion H; clear H; subst
    end.

Ltac finalize_cases ws h :=
  let R := fresh "R" in
  pose proof (finalizeWorkspace_run ws h) as R;
  destruct (finalizeWorkspace ws h) as [? ?]; cbn [fst snd] in *;
  invert_runs; simplify_eq/=.

(** Claim C2.  The LogicalCluster names an owner with UID [owner_UID o].
    If the Get of the owner in a run of [finalizeWorkspace] answers with an
    object of another UID, then [finalizeWorkspace] returns an error, and
    the run holds no Update and no Delete of the owner and no Update of the
    LogicalCluster: the owner is not touched and the removal of the local
    finalizer is not persisted. *)
Theorem uid_guard ws h o c g ns n obj :
  lc_Owner ws = Some o ->
  OwnerGet c g ns n (inl obj) ∈ snd (finalizeWorkspace ws h) ->
  obj_UID obj ≠ owner_UID o ->
  is_Some (fst (finalizeWorkspace ws h)) ∧
  Forall writes_nothing (snd (finalizeWorkspace ws h)).
Proof.
  intros Ho Hget Huid.
  finalize_cases ws h; decompose_list_elem_of; simplify_eq.
  all: try (split; [by eexists | by repeat constructor]).
Qed.


(** The loop of [finalizeWorkspace] stops at the first entry that is the
    deletion finalizer. *)
Lemma finalizer_index_split fs i :
  finalizer_index fs = Some i ->
  fs = take i fs ++ LogicalClusterDeletionFinalizer :: drop (S i) fs
  ∧ LogicalClusterDeletionFinalizer ∉ take i fs.
Proof.
  revert i. induction fs as [|f fs IH]; intros i; cbn [finalizer_index]; [done|].
  destruct (String.eqb_spec f LogicalClusterDeletionFinalizer) as [->|Hne].
  - intros [= <-]. cbn. split; [done | apply not_elem_of_nil].
  - destruct (finalizer_index fs) as [j|]; [|done].
    intros [= <-]. destruct (IH j eq_refl) as [Hfs Hnot]. cbn [take drop app].
    split; [by rewrite <- Hfs|].
    rewrite not_elem_of_cons. split; [congruence | done].
Qed.

Ltac settle :=
  unfold unless_NotFound in *; repeat (case_match; simplify_eq/=).

(** Claim C7.  The LogicalCluster that [finalizeWorkspace] persists is the
    one it was given with one entry of the finalizer list left out: the
    first that equals the deletion finalizer, as strings.  The entries
    before and after it stay, in their order; for ["a"; finalizer; "b"]
    the list persisted is ["a"; "b"]. *)
Theorem finalizer_removal_exact ws h c ws' r :
  LogicalClusterUpdate c ws' r ∈ snd (finalizeWorkspace ws h) ->
  ∃ before after,
    lc_Finalizers ws = before ++ LogicalClusterDeletionFinalizer :: after
    ∧ (LogicalClusterDeletionFinalizer ∉ before)
    ∧ ws' = set_Finalizers ws (before ++ after).
Proof.
  intros Hupd.
  finalize_cases ws h; decompose_list_elem_of; simplify_eq.
  all: match goal with
       | H : finalizer_index _ = Some ?i |- _ =>
           destruct (finalizer_index_split _ _ H) as [Hfs Hnot];
           exists (take i (lc_Finalizers ws)), (drop (S i) (lc_Finalizers ws))
       end.
  all: by repeat split.
Qed.

(** Claim C8.  When a step of the finalization fails (the cleanup of
    ClusterRoles or of ClusterRoleBindings, the Get, the Update or the
    Delete of the owner), [finalizeWorkspace] returns the error of that step,
    wrapped, and the run holds no Update of the LogicalCluster.  And whenever
    [finalizeWorkspace] returns an error, either no Update of the
    LogicalCluster was issued, or no step before it failed and the error is
    the one that Update itself answered as the last call: no Update that
    succeeded stands in a run that ends in an error. *)
Theorem abort_before_persist ws h :
  (∀ ev err,
      ev ∈ snd (finalizeWorkspace ws h) -> failed_step ev = Some err ->
      (∃ format args, fst (finalizeWorkspace ws h) = Some (Errorf format args (Some err)))
      ∧ Forall (fun ev => is_LogicalClusterUpdate ev = false) (snd (finalizeWorkspace ws h)))
  ∧ (∀ err,
      fst (finalizeWorkspace ws h) = Some err ->
      Forall (fun ev => is_LogicalClusterUpdate ev = false) (snd (finalizeWorkspace ws h))
      ∨ (∃ c ws',
          last (snd (finalizeWorkspace ws h)) = Some (LogicalClusterUpdate c ws' (Some err)))
        ∧ Forall (fun ev => failed_step ev = None) (snd (finalizeWorkspace ws h))).
Proof.
  split.
  - intros ev err Hev Hfail.
    finalize_cases ws h; decompose_list_elem_of; simplify_eq/=; settle.
    all: split; [by eexists _, _ | by repeat constructor].
  - intros err Herr.
    finalize_cases ws h; settle.
    all: try (left; by repeat constructor).
    all: right; split; [by eexists _, _ | repeat constructor; cbn; settle; done].
Qed.


(** Claim C9, amended.  A Delete of the owner is issued if and only if the
    Get of the owner answered an object with the UID of the owner reference,
    the LogicalCluster is directly deletable, and the owner object then at
    hand has no deletion timestamp: the fetched object when it does not hold
    the owner-side finalizer, else the object that the Update of the owner
    answered with (so that Update did not fail).  The Delete names the owner
    of the reference and carries its UID as precondition.  An error of the
    Delete other than not-found is returned, wrapped, and nothing is
    persisted; else the finalization goes on to the Update of the
    LogicalCluster and returns what that Update answers. *)
Theorem owner_delete_guard ws h :
  (Exists (fun ev => is_OwnerDelete ev = true) (snd (finalizeWorkspace ws h))
   ↔ ∃ o obj,
       lc_Owner ws = Some o
       ∧ OwnerGet (owner_Cluster o) (owner_gvr o) (owner_Namespace o) (owner_Name o) (inl obj)
           ∈ snd (finalizeWorkspace ws h)
       ∧ obj_UID obj = owner_UID o
       ∧ lc_DirectlyDeletable ws = true
       ∧ ((LogicalClusterFinalizer ∉ obj_Finalizers obj)
          ∧ IsZero (obj_DeletionTimestamp obj) = true
          ∨ ∃ obj',
              OwnerUpdate (owner_Cluster o) (owner_gvr o) (owner_Namespace o)
                (strip_owner_finalizer obj) (inl obj') ∈ snd (finalizeWorkspace ws h)
              ∧ IsZero (obj_DeletionTimestamp obj') = true))
  ∧ (∀ c g ns n uid e,
       OwnerDelete c g ns n uid e ∈ snd (finalizeWorkspace ws h) ->
       ∃ o,
         lc_Owner ws = Some o
         ∧ (c, g, ns, n) = (owner_Cluster o, owner_gvr o, owner_Namespace o, owner_Name o)
         ∧ uid = owner_UID o
         ∧ match unless_NotFound e (owner_delete_error o) with
           | Some err =>
               fst (finalizeWorkspace ws h) = Some err
               ∧ Forall (fun ev => is_LogicalClusterUpdate ev = false)
                   (snd (finalizeWorkspace ws h))
           | None =>
               ∃ c' ws',
                 last (snd (finalizeWorkspace ws h))
                 = Some (LogicalClusterUpdate c' ws' (fst (finalizeWorkspace ws h)))
           end).
Proof.
  split; [split|].
  - intros Hdel. apply Exists_exists in Hdel as (ev & Hev & Hdel).
    finalize_cases ws h; decompose_list_elem_of; simplify_eq/=.
    all: match goal with
         | H : _ && _ = true |- _ => apply andb_prop in H as [? ?]
         end.
    all: eexists _, _; split; [done|]; split; [in_trace|]; split; [done|]; split; [done|].
    all: try (left; by split).
    all: right; eexists; split; [in_trace | done].
  - intros (o & obj & Ho & Hget & Huid & Hdd & Hts).
    apply Exists_exists.
    finalize_cases ws h; decompose_list_elem_of; simplify_eq/=.
    all: destruct Hts as [[Hno Hz] | (updated & Hupd & Hz)];
      decompose_list_elem_of; simplify_eq/=; try done.
    all: try match goal with
           | H : _ && _ = false |- _ => rewrite Hz, Hdd in H; discriminate
           end.
    all: eexists (OwnerDelete _ _ _ _ _ _); split; [in_trace | done].
  - intros c g ns n uid e Hdel.
    finalize_cases ws h; decompose_list_elem_of; simplify_eq/=.
    all: eexists; split; [done|]; split; [done|]; split; [done|].
    all: settle.
    all: try (split; [done | by repeat constructor]).
    all: by eexists _, _.
Qed.


(** The calls at which a not-found error is taken as success: by [process]
    from the lister, which returns nil; by [finalizeWorkspace] from the
    cleanup of ClusterRoles (the cleanup of ClusterRoleBindings follows) and
    of ClusterRoleBindings (the Get of the owner or the Update of the
    LogicalCluster follows), from the Get of the owner (the owner is not
    written, and the finalization goes on to the Update of the
    LogicalCluster, its last call) and from the Delete of the owner
    (likewise). *)
Theorem not_found_swallowed err :
  IsNotFound err = true ->
  (∀ key h c ns n,
      SplitMetaClusterNamespaceKey key = inl (c, ns, n) ->
      lister_Get h c n = inr err ->
      process key h = (None, [ListerGet c n (inr err)]))
  ∧ (∀ ws h,
       (∀ c, ClusterRolesDeleteCollection c (Some err) ∈ snd (finalizeWorkspace ws h) ->
             ∃ e, ClusterRoleBindingsDeleteCollection c e ∈ snd (finalizeWorkspace ws h))
       ∧ (∀ c, ClusterRoleBindingsDeleteCollection c (Some err)
                 ∈ snd (finalizeWorkspace ws h) ->
               Exists (fun ev => is_OwnerGet ev = true ∨ is_LogicalClusterUpdate ev = true)
                 (snd (finalizeWorkspace ws h)))
       ∧ (∀ c g ns n, OwnerGet c g ns n (inr err) ∈ snd (finalizeWorkspace ws h) ->
               Forall (fun ev => is_OwnerUpdate ev = false ∧ is_OwnerDelete ev = false)
                 (snd (finalizeWorkspace ws h))
               ∧ ∃ c' ws', last (snd (finalizeWorkspace ws h))
                           = Some (LogicalClusterUpdate c' ws' (fst (finalizeWorkspace ws h))))
       ∧ (∀ c g ns n uid, OwnerDelete c g ns n uid (Some err)
                            ∈ snd (finalizeWorkspace ws h) ->
               ∃ c' ws', last (snd (finalizeWorkspace ws h))
                         = Some (LogicalClusterUpdate c' ws' (fst (finalizeWorkspace ws h))))).
Proof.
  intros Hnf. split.
  - intros key h c ns n Hkey Hget.
    unfold process. rewrite Hkey, bind_run. cbn [call fst snd].
    rewrite Hget, Hnf. reflexivity.
  - intros ws h. split; [|split; [|split]].
    + intros c Hev. finalize_cases ws h; decompose_list_elem_of; simplify_eq/=; settle;
        try (rewrite Hnf in *; cbn in *; discriminate).
      all: eexists; in_trace.
    + intros c Hev. apply Exists_exists.
      finalize_cases ws h; decompose_list_elem_of; simplify_eq/=; settle;
        try (rewrite Hnf in *; cbn in *; discriminate).
      all: first [ eexists (OwnerGet _ _ _ _ _); split; [in_trace | by left]
                 | eexists (LogicalClusterUpdate _ _ _); split; [in_trace | by right] ].
    + intros c g ns n Hev.
      finalize_cases ws h; decompose_list_elem_of; simplify_eq/=; settle;
        try (rewrite Hnf in *; cbn in *; discriminate).
      all: split; [by repeat constructor | by eexists _, _].
    + intros c g ns n uid Hev.
      finalize_cases ws h; decompose_list_elem_of; simplify_eq/=; settle;
        try (rewrite Hnf in *; cbn in *; discriminate).
      all: by eexists _, _.
Qed.


(** [List] gives the members of the set, each once, in byte-wise order. *)
Lemma sets_List_spec (s : gset string) :
  StronglySorted String.le (sets.List s)
  ∧ NoDup (sets.List s)
  ∧ ∀ x, x ∈ sets.List s ↔ x ∈ s.
Proof.
  unfold sets.List. split; [|split].
  - apply StronglySorted_merge_sort; apply _.
  - rewrite merge_sort_Permutation. apply NoDup_elements.
  - intros x. rewrite merge_sort_Permutation. apply elem_of_elements.
Qed.

(** Claim C10.  The object that [finalizeWorkspace] sends in an Update of
    the owner is the fetched owner with its finalizer list replaced: the
    new list is sorted in byte-wise order, has no duplicates, and holds the
    finalizers of the fetched owner other than the owner-side finalizer.
    It is the same for every order of the fetched list, so that the order of
    the other finalizers of the owner is lost. *)
Theorem owner_finalizers_set_converted ws h c g ns obj' r :
  OwnerUpdate c g ns obj' r ∈ snd (finalizeWorkspace ws h) ->
  ∃ o obj,
    lc_Owner ws = Some o
    ∧ OwnerGet (owner_Cluster o) (owner_gvr o) (owner_Namespace o) (owner_Name o) (inl obj)
        ∈ snd (finalizeWorkspace ws h)
    ∧ obj' = SetFinalizers obj (obj_Finalizers obj')
    ∧ StronglySorted String.le (obj_Finalizers obj')
    ∧ NoDup (obj_Finalizers obj')
    ∧ (∀ f, f ∈ obj_Finalizers obj'
            ↔ f ∈ obj_Finalizers obj ∧ f ≠ LogicalClusterFinalizer)
    ∧ (∀ fs, fs ≡ₚ obj_Finalizers obj ->
             obj_Finalizers (strip_owner_finalizer (SetFinalizers obj fs))
             = obj_Finalizers obj').
Proof.
  intros Hupd.
  assert (∀ obj, let fs := obj_Finalizers (strip_owner_finalizer obj) in
            StronglySorted String.le fs ∧ NoDup fs
            ∧ (∀ f, f ∈ fs ↔ f ∈ obj_Finalizers obj ∧ f ≠ LogicalClusterFinalizer)
            ∧ (∀ fs', fs' ≡ₚ obj_Finalizers obj ->
                 obj_Finalizers (strip_owner_finalizer (SetFinalizers obj fs')) = fs))
    as Hstrip.
  { intros obj. cbn.
    destruct (sets_List_spec
                (sets.Delete (sets.NewString (obj_Finalizers obj)) LogicalClusterFinalizer))
      as (Hsorted & Hnodup & Hmem).
    split; [done|]. split; [done|]. split.
    - intros f. rewrite Hmem. unfold sets.Delete, sets.NewString.
      by rewrite elem_of_difference, elem_of_list_to_set, elem_of_singleton.
    - intros fs' Hperm. unfold sets.NewString. do 2 f_equal.
      apply set_eq. intros x. rewrite !elem_of_list_to_set. by rewrite Hperm. }
  finalize_cases ws h; decompose_list_elem_of; simplify_eq/=.
  all: eexists _, _; split; [done|]; split; [in_trace|]; split; [done|].
  all: apply Hstrip.
Qed.

End Finalization.

(** ** The worker *)

Section Worker.

Context {env : Env} {names : FinalizerNames}.

Lemma filter_none (p : Event -> bool) (t : Trace) :
  Forall (fun ev => p ev = false) t -> filter (fun ev => p ev = true) t = [].
Proof.
  induction 1 as [|ev t Hev _ IH]; [done|].
  rewrite filter_cons_False; [done | congruence].
Qed.

Lemma patchCondition_trace old new h :
  Forall (fun ev => is_LogicalClusterPatch ev = true) (snd (patchCondition old new h)).
Proof.
  unfold patchCondition. repeat case_match; cbn; by repeat constructor.
Qed.

Lemma finalizeWorkspace_no_queue_writes ws h :
  Forall (fun ev => is_queue_write ev = false) (snd (finalizeWorkspace ws h)).
Proof.
  pose proof (finalizeWorkspace_run ws h) as R.
  destruct (finalizeWorkspace ws h) as [res t]. cbn [fst snd] in *.
  inversion R; subst; clear R.
  all: repeat match goal with
         | H : owner_passed _ _ |- _ =>
             unfold owner_passed in H; cbn [lc_Owner set_Finalizers] in H
         | H : match lc_Owner ?ws with _ => _ end |- _ => destruct (lc_Owner ws) eqn:?
         | H : owner_run _ _ _ _ |- _ => inversion H; clear H; subst
         | H : delete_run _ _ _ _ _ |- _ => inversion H; clear H; subst
         end.
  all: simplify_eq/=; by repeat constructor.
Qed.

(** [process] leaves the queue to the worker. *)
Lemma process_no_queue_writes key h :
  Forall (fun ev => is_queue_write ev = false) (snd (process key h)).
Proof.
  unfold process.
  destruct (SplitMetaClusterNamespaceKey key) as [[[c ns] n]|err]; [|by repeat constructor].
  rewrite bind_run. cbn [call fst snd].
  destruct (lister_Get h c n) as [lc|err].
  - destruct (IsZero (lc_DeletionTimestamp lc)); [by repeat constructor|].
    rewrite bind_run. cbn [call fst snd].
    destruct (deleter_Delete _ lc) as [lc' [derr|]]; cbn [fst snd].
    + rewrite and_then_run.
      constructor; [done|]. constructor; [done|].
      eapply Forall_impl with (P := fun ev => is_LogicalClusterPatch ev = true).
      * destruct (fst (patchCondition lc lc' _)); cbn [fst snd ret];
          rewrite ?app_nil_r; apply patchCondition_trace.
      * by intros [].
    + constructor; [done|]. constructor; [done|]. apply finalizeWorkspace_no_queue_writes.
  - destruct (IsNotFound err); by repeat constructor.
Qed.

(** What the worker tells the queue about a key it took, by the outcome
    of [process]. *)
Lemma processNextWorkItem_run h key :
  queue_Get h = (key, false) ->
  fst (processNextWorkItem h) = true
  ∧ queue_writes (snd (processNextWorkItem h))
    = match fst (process key (h ++ [QueueGet key false])) with
      | None => [QueueForget key; QueueDone key]
      | Some err =>
          match errors_As_ResourcesRemaining err with
          | Some estimate => [QueueAddAfter key (requeue_duration estimate); QueueDone key]
          | None => [QueueAddRateLimited key; QueueDone key]
          end
      end
  ∧ (∀ err,
       fst (process key (h ++ [QueueGet key false])) = Some err ->
       errors_As_ResourcesRemaining err = None ->
       HandleError (Errorf "deletion of logical cluster %v failed: %w" [key] (Some err))
         ∈ snd (processNextWorkItem h)).
Proof.
  intros Hget. unfold processNextWorkItem, queue_writes.
  rewrite bind_run. cbn [call fst snd]. rewrite Hget. cbn [fst snd].
  rewrite bind_run.
  pose proof (process_no_queue_writes key (h ++ [QueueGet key false])) as Hquiet.
  apply filter_none in Hquiet.
  destruct (process key (h ++ [QueueGet key false])) as [[err|] t]; cbn [fst snd] in *.
  - destruct (errors_As_ResourcesRemaining err) as [estimate|] eqn:Has.
    + split; [done|]. split; [|congruence].
      cbn [bind emit ret fst snd app].
      rewrite filter_cons_False by done. rewrite filter_app, Hquiet. done.
    + split; [done|]. split.
      * cbn [bind emit ret fst snd app].
        rewrite filter_cons_False by done. rewrite filter_app, Hquiet. done.
      * intros ? [= <-] _. cbn [bind emit ret fst snd app].
        rewrite elem_of_cons, elem_of_app. right. right.
        apply list_elem_of_further, list_elem_of_here.
  - split; [done|]. split; [|done].
    cbn [bind emit ret fst snd app].
    rewrite filter_cons_False by done. rewrite filter_app, Hquiet. done.
Qed.

(** Claim C4.  For a key that the worker got from the queue, one run of
    [processNextWorkItem] calls Done once, for that key.  The calls of the
    run that write to the queue are: Forget and Done when [process] returns
    nil; AddAfter and Done when it returns an error that is a
    ResourcesRemainingError; AddRateLimited and Done for any other error,
    which is then reported to the error sink. *)
Theorem worker_outcome h key :
  queue_Get h = (key, false) ->
  count is_QueueDone (snd (processNextWorkItem h)) = 1%nat
  ∧ QueueDone key ∈ snd (processNextWorkItem h)
  ∧ queue_writes (snd (processNextWorkItem h))
    = match fst (process key (h ++ [QueueGet key false])) with
      | None => [QueueForget key; QueueDone key]
      | Some err =>
          match errors_As_ResourcesRemaining err with
          | Some estimate => [QueueAddAfter key (requeue_duration estimate); QueueDone key]
          | None => [QueueAddRateLimited key; QueueDone key]
          end
      end
  ∧ (∀ err,
       fst (process key (h ++ [QueueGet key false])) = Some err ->
       errors_As_ResourcesRemaining err = None ->
       HandleError (Errorf "deletion of logical cluster %v failed: %w" [key] (Some err))
         ∈ snd (processNextWorkItem h)).
Proof.
  intros Hget. destruct (processNextWorkItem_run h key Hget) as (_ & Hcalls & Hsink).
  assert (filter (fun ev => is_QueueDone ev = true) (queue_writes (snd (processNextWorkItem h)))
          = [QueueDone key]) as Hdone.
  { rewrite Hcalls. by repeat case_match. }
  assert (∀ t : Trace, filter (fun ev => is_QueueDone ev = true) (queue_writes t)
                       = filter (fun ev => is_QueueDone ev = true) t) as Hsub.
  { intros t. unfold queue_writes. induction t as [|ev t IH]; [done|].
    rewrite (filter_cons _ ev t).
    destruct ev; cbn [is_queue_write]; case_decide; try done;
      rewrite ?filter_cons; cbn [is_QueueDone]; repeat case_decide; try done;
      by rewrite IH. }
  rewrite Hsub in Hdone.
  split; [unfold count; by rewrite Hdone|].
  split; [|done].
  assert (QueueDone key
            ∈ filter (fun ev => is_QueueDone ev = true) (snd (processNextWorkItem h)))
    as Hin by (rewrite Hdone; apply list_elem_of_here).
  by apply list_elem_of_filter in Hin as [_ Hin].
Qed.

(** Claim C6.  If the conditions of the old and of the new LogicalCluster
    are equal, [patchCondition] returns nil and calls nothing.  A Patch that
    it issues is on the status subresource and the conditions differ. *)
Theorem no_write_on_no_change old new h :
  (lc_Conditions old = lc_Conditions new -> patchCondition old new h = (None, []))
  ∧ (∀ c n patch sub e,
       LogicalClusterPatch c n patch sub e ∈ snd (patchCondition old new h) ->
       sub = "status" ∧ lc_Conditions old ≠ lc_Conditions new).
Proof.
  unfold patchCondition, Semantic_DeepEqual. split.
  - intros Heq. by rewrite bool_decide_eq_true_2.
  - intros c n patch sub e.
    case_bool_decide as Heq; [by intros ?%elem_of_nil|].
    repeat case_match; cbn [ret call fst snd]; intros Hev;
      decompose_list_elem_of; by simplify_eq.
Qed.

(** In range, the wait is the estimate halved plus one, in seconds. *)
Lemma requeue_duration_exact (estimate : Z) :
  (0 ≤ estimate ≤ 18446744071)%Z ->
  requeue_duration estimate = (estimate `div` 2 + 1) * Go.Second.
Proof.
  intros Hrange. unfold requeue_duration, requeue_seconds, Go.wrap64, Go.Second.
  rewrite Z.quot_div_nonneg by lia.
  assert (0 ≤ estimate `div` 2 ≤ 9223372035)%Z as Hhalf.
  { pose proof (Z.div_mod estimate 2) as Hdiv.
    pose proof (Z.mod_pos_bound estimate 2). lia. }
  rewrite (Z.mod_small (estimate `div` 2 + 1 + 2 ^ 63)) by lia.
  rewrite Z.mod_small by lia. lia.
Qed.

(** Claim C1, amended.  The worker takes a key whose LogicalCluster is
    under deletion; the deleter answers an error that is a
    ResourcesRemainingError with [estimate], and the patch of the conditions
    does not fail.  Then [process] returns the error of the deleter as it
    is, and the worker requeues the key with AddAfter, and calls Done.  The
    delay is [time.Duration(estimate/2 + 1) * time.Second]: [estimate/2 + 1]
    seconds as long as that fits a Duration, as for the estimates 9, 4 and
    0, which give 5, 3 and 1 seconds. *)
Theorem requeue_after_estimate h key c ns n lc lc' derr (estimate : Z) :
  queue_Get h = (key, false) ->
  SplitMetaClusterNamespaceKey key = inl (c, ns, n) ->
  lister_Get (h ++ [QueueGet key false]) c n = inl lc ->
  IsZero (lc_DeletionTimestamp lc) = false ->
  deleter_Delete (h ++ [QueueGet key false; ListerGet c n (inl lc)]) lc = (lc', Some derr) ->
  errors_As_ResourcesRemaining derr = Some estimate ->
  fst (patchCondition lc lc'
         (h ++ [QueueGet key false; ListerGet c n (inl lc); DeleterDelete lc lc' (Some derr)]))
  = None ->
  fst (process key (h ++ [QueueGet key false])) = Some derr
  ∧ queue_writes (snd (processNextWorkItem h))
    = [QueueAddAfter key (requeue_duration estimate); QueueDone key]
  ∧ ((0 ≤ estimate ≤ 18446744071)%Z ->
     requeue_duration estimate = (estimate `div` 2 + 1) * Go.Second)
  ∧ requeue_duration 9 = 5 * Go.Second
  ∧ requeue_duration 4 = 3 * Go.Second
  ∧ requeue_duration 0 = 1 * Go.Second.
Proof.
  intros Hget Hkey Hlc Hts Hdel Has Hpatch.
  assert (fst (process key (h ++ [QueueGet key false])) = Some derr) as Hprocess.
  { unfold process. rewrite Hkey, bind_run. cbn [call fst snd]. rewrite Hlc, Hts.
    rewrite bind_run. cbn [call fst snd]. rewrite <- app_assoc. cbn [app].
    rewrite Hdel. cbn [fst snd]. rewrite and_then_run.
    rewrite <- !app_assoc. cbn [app]. by rewrite Hpatch. }
  split; [done|]. split.
  - destruct (processNextWorkItem_run h key Hget) as (_ & Hcalls & _).
    by rewrite Hcalls, Hprocess, Has.
  - split; [apply requeue_duration_exact | done].
Qed.

End Worker.

(** ** The event handler *)

Section Bridge.

Context {env : Env}.

(** Claim C3, amended.  The handler that [NewController] registers adds
    nothing to the queue on a delete notification.  On an add or update
    notification it enqueues the (new) object if the filter takes it, and
    so adds a key only for a LogicalCluster with a deletion timestamp, the
    key that the key function gives for it. *)
Theorem event_bridge n h :
  match n with
  | Deleted _ => deliver NewController_handler n h = (tt, [])
  | Added obj | Updated _ obj =>
      deliver NewController_handler n h
      = (if NewController_FilterFunc obj then enqueue obj h else (tt, []))
      ∧ ∀ key,
          QueueAdd key ∈ snd (deliver NewController_handler n h) ->
          ∃ lc, obj = ObjLogicalCluster lc
                ∧ IsZero (lc_DeletionTimestamp lc) = false
                ∧ MetaClusterNamespaceKeyFunc obj = inl key
  end.
Proof.
  assert (∀ obj key, QueueAdd key ∈ snd (if NewController_FilterFunc obj
                                          then enqueue obj h else (tt, [])) ->
            ∃ lc, obj = ObjLogicalCluster lc
                  ∧ IsZero (lc_DeletionTimestamp lc) = false
                  ∧ MetaClusterNamespaceKeyFunc obj = inl key) as Honly.
  { intros obj key. unfold enqueue.
    destruct obj as [lc|descr]; cbn [NewController_FilterFunc]; [|by intros ?%elem_of_nil].
    destruct (IsZero (lc_DeletionTimestamp lc)) eqn:Hts; cbn [negb];
      [by intros ?%elem_of_nil|].
    destruct (MetaClusterNamespaceKeyFunc (ObjLogicalCluster lc)) as [k|err];
      cbn [emit snd]; intros Hin; decompose_list_elem_of; simplify_eq.
    by exists lc. }
  destruct n as [obj|oldObj obj|obj]; cbn [deliver].
  - assert (Filtering.OnAdd NewController_handler obj h
            = (if NewController_FilterFunc obj then enqueue obj h else (tt, []))) as ->.
    { unfold Filtering.OnAdd. cbn. by destruct (NewController_FilterFunc obj). }
    split; [done | apply Honly].
  - assert (Filtering.OnUpdate NewController_handler oldObj obj h
            = (if NewController_FilterFunc obj then enqueue obj h else (tt, []))) as ->.
    { unfold Filtering.OnUpdate. cbn.
      by destruct (NewController_FilterFunc obj), (NewController_FilterFunc oldObj). }
    split; [done | apply Honly].
  - unfold Filtering.OnDelete. cbn. by destruct (NewController_FilterFunc obj).
Qed.

End Bridge.

(** ** The scenario, run *)

Section Runs_of_the_scenario.

Import Scenario.

Lemma uid_guard_witness :
  is_Some (fst (finalizeWorkspace (env:=replaced) (names:=names) ws []))
  ∧ Forall writes_nothing (snd (finalizeWorkspace (env:=replaced) (names:=names) ws [])).
Proof.
  apply (uid_guard (env:=replaced) (names:=names) ws [] owner "shardB" gvr "" "w1"
           (widget "xyz" ["core.kcp.io/logicalcluster"] None)).
  - reflexivity.
  - vm_compute. in_trace.
  - vm_compute. discriminate.
Defined.


Lemma finalizer_removal_exact_witness :
  LogicalClusterUpdate "root:org:ws" (cluster ["a"; "b"] (Some owner)) None
    ∈ snd (finalizeWorkspace (env:=calm) (names:=names) ws [])
  ∧ ∃ before after,
      lc_Finalizers ws = before ++ "core.kcp.io/logicalcluster-deletion" :: after
      ∧ ("core.kcp.io/logicalcluster-deletion" ∉ before)
      ∧ cluster ["a"; "b"] (Some owner) = set_Finalizers ws (before ++ after).
Proof.
  assert (LogicalClusterUpdate "root:org:ws" (cluster ["a"; "b"] (Some owner)) None
            ∈ snd (finalizeWorkspace (env:=calm) (names:=names) ws [])) as Hin.
  { vm_compute. in_trace. }
  split; [exact Hin|].
  exact (finalizer_removal_exact (env:=calm) (names:=names) ws [] _ _ _ Hin).
Defined.

Lemma abort_before_persist_witness :
  (∃ format args,
      fst (finalizeWorkspace (env:=blocked) (names:=names) ws [])
      = Some (Errorf format args (Some conflict)))
  ∧ Forall (fun ev => is_LogicalClusterUpdate ev = false)
      (snd (finalizeWorkspace (env:=blocked) (names:=names) ws [])).
Proof.
  apply (proj1 (abort_before_persist (env:=blocked) (names:=names) ws [])
           (ClusterRoleBindingsDeleteCollection "root:org:ws" (Some conflict)) conflict).
  - vm_compute. in_trace.
  - reflexivity.
Defined.

Lemma owner_finalizers_set_converted_witness :
  OwnerUpdate "shardB" gvr "" (widget "abc" ["m"; "z"] None)
    (inl (widget "abc" ["m"; "z"] None))
    ∈ snd (finalizeWorkspace (env:=calm) (names:=names) ws [])
  ∧ ∃ o obj,
      lc_Owner ws = Some o
      ∧ OwnerGet (owner_Cluster o) (owner_gvr o) (owner_Namespace o) (owner_Name o) (inl obj)
          ∈ snd (finalizeWorkspace (env:=calm) (names:=names) ws [])
      ∧ widget "abc" ["m"; "z"] None = SetFinalizers obj ["m"; "z"]
      ∧ StronglySorted String.le ["m"; "z"]
      ∧ NoDup ["m"; "z"]
      ∧ (∀ f, f ∈ ["m"; "z"]
              ↔ f ∈ obj_Finalizers obj ∧ f ≠ "core.kcp.io/logicalcluster")
      ∧ (∀ fs, fs ≡ₚ obj_Finalizers obj ->
               obj_Finalizers (strip_owner_finalizer (names:=names) (SetFinalizers obj fs))
               = ["m"; "z"]).
Proof.
  assert (OwnerUpdate "shardB" gvr "" (widget "abc" ["m"; "z"] None)
            (inl (widget "abc" ["m"; "z"] None))
            ∈ snd (finalizeWorkspace (env:=calm) (names:=names) ws [])) as Hin.
  { vm_compute. in_trace. }
  split; [exact Hin|].
  exact (owner_finalizers_set_converted (env:=calm) (names:=names) ws [] _ _ _ _ _ Hin).
Defined.

Lemma not_found_swallowed_witness :
  process (env:=forgotten) (names:=names) key []
  = (None, [ListerGet "root:org:ws" "cluster" (inr notFound)]).
Proof.
  apply (proj1 (not_found_swallowed (env:=forgotten) (names:=names) notFound eq_refl)
           key [] "root:org:ws" "" "cluster"); reflexivity.
Defined.

Lemma worker_outcome_witness :
  count is_QueueDone (snd (processNextWorkItem (env:=calm) (names:=names) [])) = 1%nat
  ∧ QueueDone key ∈ snd (processNextWorkItem (env:=calm) (names:=names) [])
  ∧ queue_writes (snd (processNextWorkItem (env:=calm) (names:=names) []))
    = [QueueForget key; QueueDone key].
Proof.
  destruct (worker_outcome (env:=calm) (names:=names) [] key eq_refl)
    as (Hcount & Hdone & Hwrites & _).
  split; [exact Hcount|]. split; [exact Hdone|].
  rewrite Hwrites. vm_compute. reflexivity.
Defined.

Lemma no_write_on_no_change_witness :
  patchCondition (env:=calm) ws ws [] = (None, []).
Proof.
  apply (proj1 (no_write_on_no_change (env:=calm) ws ws [])). reflexivity.
Defined.

Lemma requeue_after_estimate_witness :
  fst (process (env:=draining) (names:=names) key [QueueGet key false])
  = Some (ResourcesRemainingError 9 "resources remain")
  ∧ queue_writes (snd (processNextWorkItem (env:=draining) (names:=names) []))
    = [QueueAddAfter key 5000000000; QueueDone key].
Proof.
  destruct (requeue_after_estimate (env:=draining) (names:=names)
              [] key "root:org:ws" "" "cluster" ws (set_Conditions ws [waiting])
              (ResourcesRemainingError 9 "resources remain") 9)
    as (Hprocess & Hwrites & _); try reflexivity.
  split; [exact Hprocess | exact Hwrites].
Defined.

(** The condition patch fails: the worker sees the error of the patch and
    backs off; and an estimate near the largest [int64] wraps around. *)
Lemma requeue_claim_counterexample :
  DeleterDelete ws (set_Conditions ws [waiting])
    (Some (ResourcesRemainingError 9 "resources remain"))
    ∈ snd (processNextWorkItem (env:=starved) (names:=names) [])
  ∧ fst (process (env:=starved) (names:=names) key [QueueGet key false]) = Some conflict
  ∧ queue_writes (snd (processNextWorkItem (env:=starved) (names:=names) []))
    = [QueueAddRateLimited key; QueueDone key]
  ∧ ¬ (∃ d, QueueAddAfter key d
              ∈ snd (processNextWorkItem (env:=starved) (names:=names) []))
  ∧ requeue_duration Go.MaxInt64 = 0%Z.
Proof.
  split; [vm_compute; in_trace|].
  split; [reflexivity|]. split; [reflexivity|].
  split; [|reflexivity].
  intros (d & Hin).
  assert (Forall (fun ev => is_QueueAddAfter ev = false)
            (snd (processNextWorkItem (env:=starved) (names:=names) []))) as Hnone.
  { vm_compute. by repeat constructor. }
  rewrite Forall_forall in Hnone. by apply Hnone in Hin.
Qed.

(** A delete notification, even of an object the filter takes, adds
    nothing to the queue. *)
Lemma event_bridge_claim_counterexample :
  NewController_FilterFunc (ObjLogicalCluster ws) = true
  ∧ ¬ ∃ k, QueueAdd k
             ∈ snd (deliver (NewController_handler (env:=calm))
                      (Deleted (ObjLogicalCluster ws)) []).
Proof.
  split; [reflexivity|].
  intros (k & Hin). vm_compute in Hin. by apply elem_of_nil in Hin.
Qed.


(** The fetched owner has the UID of the reference and no deletion
    timestamp, the LogicalCluster is directly deletable, and yet no Delete
    is issued: the Update of the owner failed. *)
Lemma owner_delete_claim_counterexample :
  ¬ (Exists (fun ev => is_OwnerDelete ev = true)
       (snd (finalizeWorkspace (env:=stale) (names:=names) ws []))
     ↔ ∃ c g ns n obj,
         OwnerGet c g ns n (inl obj)
           ∈ snd (finalizeWorkspace (env:=stale) (names:=names) ws [])
         ∧ obj_UID obj = owner_UID owner
         ∧ IsZero (obj_DeletionTimestamp obj) = true
         ∧ lc_DirectlyDeletable ws = true).
Proof.
  intros [_ Hissue].
  assert (Exists (fun ev => is_OwnerDelete ev = true)
            (snd (finalizeWorkspace (env:=stale) (names:=names) ws []))) as Hdel.
  { apply Hissue. exists "shardB", gvr, "", "w1", w1.
    split; [vm_compute; in_trace|]. by repeat split. }
  apply Exists_exists in Hdel as (ev & Hin & Hev).
  assert (Forall (fun ev => is_OwnerDelete ev = false)
            (snd (finalizeWorkspace (env:=stale) (names:=names) ws []))) as Hnone.
  { vm_compute. by repeat constructor. }
  rewrite Forall_forall in Hnone. apply Hnone in Hin. congruence.
Qed.

End Runs_of_the_scenario.

(** * More on the controller *)

(** ** [process], path by path *)

Section Process.

Context {env : Env} {names : FinalizerNames}.

(** Case analysis on the run of [finalizeWorkspace]. *)
Ltac split_runs :=
  repeat match goal with
    | H : finalize_run _ _ _ |- _ => inversion H; clear H; subst
    | H : owner_passed _ _ |- _ => unfold owner_passed in H; cbn [lc_Owner set_Finalizers] in H
    | H : match lc_Owner ?ws with _ => _ end |- _ => destruct (lc_Owner ws) eqn:?
    | H : owner_run _ _ _ _ |- _ => inversion H; clear H; subst
    | H : delete_run _ _ _ _ _ |- _ => inversion H; clear H; subst
    end.

Ltac finalize_paths ws h :=
  let R := fresh "R" in
  pose proof (finalizeWorkspace_run ws h) as R;
  destruct (finalizeWorkspace ws h) as [? ?]; cbn [fst snd] in *;
  split_runs; simplify_eq/=.

(** A run too short to hold the call in question. *)
Ltac off_path :=
  cbn [fst snd]; intros; decompose_list_elem_of; subst; cbn in *; discriminate.

Ltac decide_ifs :=
  unfold unless_NotFound in *; repeat (case_match; simplify_eq/=).

(** The result and the calls of [process], by what the collaborators
    answer. *)
Lemma process_run key h :
  process key h =
    match SplitMetaClusterNamespaceKey key with
    | inr err => (None, [HandleError err])
    | inl (c, _, n) =>
        match lister_Get h c n with
        | inr e =>
            if IsNotFound e then (None, [ListerGet c n (inr e)])
            else (Some e,
                  [ListerGet c n (inr e);
                   HandleError (Errorf "unable to retrieve logical cluster %v from store: %w"
                                  [key] (Some e))])
        | inl lc =>
            if IsZero (lc_DeletionTimestamp lc) then (None, [ListerGet c n (inl lc)])
            else
              let h1 := h ++ [ListerGet c n (inl lc)] in
              let d := deleter_Delete h1 lc in
              let h2 := h ++ [ListerGet c n (inl lc); DeleterDelete lc (fst d) (snd d)] in
              match snd d with
              | None =>
                  (fst (finalizeWorkspace (fst d) h2),
                   ListerGet c n (inl lc) :: DeleterDelete lc (fst d) None
                   :: snd (finalizeWorkspace (fst d) h2))
              | Some derr =>
                  (match fst (patchCondition lc (fst d) h2) with
                   | Some err => Some err
                   | None => Some derr
                   end,
                   ListerGet c n (inl lc) :: DeleterDelete lc (fst d) (Some derr)
                   :: snd (patchCondition lc (fst d) h2))
              end
        end
    end.
Proof.
  unfold process.
  destruct (SplitMetaClusterNamespaceKey key) as [[[c ns] n]|err]; [|done].
  rewrite bind_run. cbn [call fst snd].
  destruct (lister_Get h c n) as [lc|e].
  - destruct (IsZero (lc_DeletionTimestamp lc)); [done|].
    rewrite bind_run. cbn [call fst snd]. cbn zeta.
    rewrite <- !app_assoc. cbn [app].
    destruct (deleter_Delete _ lc) as [lc' [derr|]]; cbn [fst snd app].
    + rewrite and_then_run. destruct (fst (patchCondition lc lc' _)); cbn [fst snd ret];
        by rewrite ?app_nil_r.
    + done.
  - by destruct (IsNotFound e).
Qed.


Lemma finalizeWorkspace_calls ws h :
  Forall (fun ev => is_finalize_call ev = true) (snd (finalizeWorkspace ws h)).
Proof. finalize_paths ws h; by repeat constructor. Qed.

(** Property X1.  Whatever [process] does beyond asking the
    lister (calling the deleter, patching the conditions, any call of the
    finalization), it does for a key that parses, on the LogicalCluster the
    lister holds for the cluster and name of that key, and only if that
    LogicalCluster has a deletion timestamp; its second call is then the
    deleter's, on that object. *)
Theorem process_acts_on_deleting_only key h ev :
  ev ∈ snd (process key h) ->
  is_DeleterDelete ev || is_LogicalClusterPatch ev || is_finalize_call ev = true ->
  ∃ c ns n lc lc' e,
    SplitMetaClusterNamespaceKey key = inl (c, ns, n)
    ∧ snd (process key h) !! 0%nat = Some (ListerGet c n (inl lc))
    ∧ IsZero (lc_DeletionTimestamp lc) = false
    ∧ snd (process key h) !! 1%nat = Some (DeleterDelete lc lc' e).
Proof.
  rewrite process_run.
  destruct (SplitMetaClusterNamespaceKey key) as [[[c ns] n]|err];
    [|off_path].
  destruct (lister_Get h c n) as [lc|e].
  - destruct (IsZero (lc_DeletionTimestamp lc)) eqn:Hts;
      [off_path|].
    cbn zeta. destruct (deleter_Delete _ lc) as [lc' [derr|]]; cbn [fst snd]; intros _ _.
    + by exists c, ns, n, lc, lc', (Some derr).
    + by exists c, ns, n, lc, lc', None.
  - destruct (IsNotFound e); off_path.
Qed.

(** Property X2.  A call of the finalization (the cleanup of
    roles and bindings, any call for the owner, the Update that drops the
    finalizer) is made only in a run of [process] in which the deleter
    answered nil; such a run does not patch the conditions. *)
Theorem finalizer_kept_while_content_remains key h ev :
  ev ∈ snd (process key h) ->
  is_finalize_call ev = true ->
  (∃ lc lc', snd (process key h) !! 1%nat = Some (DeleterDelete lc lc' None))
  ∧ Forall (fun ev => is_LogicalClusterPatch ev = false) (snd (process key h)).
Proof.
  rewrite process_run.
  destruct (SplitMetaClusterNamespaceKey key) as [[[c ns] n]|err];
    [|off_path].
  destruct (lister_Get h c n) as [lc|e].
  - destruct (IsZero (lc_DeletionTimestamp lc)) eqn:Hts;
      [off_path|].
    cbn zeta. destruct (deleter_Delete _ lc) as [lc' [derr|]]; cbn [fst snd].
    + intros Hin Hev. exfalso.
      pose proof (patchCondition_trace lc lc'
                    (h ++ [ListerGet c n (inl lc); DeleterDelete lc lc' (Some derr)])) as Hp.
      rewrite Forall_forall in Hp.
      decompose_list_elem_of; simplify_eq/=.
      match goal with H : _ ∈ _ |- _ => apply Hp in H end. by destruct ev.
    + intros _ _. split; [by eexists _, _|].
      constructor; [done|]. constructor; [done|].
      eapply Forall_impl; [apply finalizeWorkspace_calls|]. by intros [].
  - destruct (IsNotFound e); off_path.
Qed.


(** Property X3.  When the deleter answers an error, [process]
    never returns nil and makes no call of the finalization.  It returns the
    error of the deleter as it is when the conditions did not change; when a
    Patch of the conditions was issued, it returns the error of the Patch if
    there is one, else the error of the deleter. *)
Theorem deleter_failure_surfaces key h lc lc' derr :
  DeleterDelete lc lc' (Some derr) ∈ snd (process key h) ->
  is_Some (fst (process key h))
  ∧ Forall (fun ev => is_finalize_call ev = false) (snd (process key h))
  ∧ (lc_Conditions lc = lc_Conditions lc' ->
     fst (process key h) = Some derr
     ∧ Forall (fun ev => is_LogicalClusterPatch ev = false) (snd (process key h)))
  ∧ (∀ c n patch sub answer,
       LogicalClusterPatch c n patch sub answer ∈ snd (process key h) ->
       fst (process key h) = Some (default derr answer)).
Proof.
  rewrite process_run.
  destruct (SplitMetaClusterNamespaceKey key) as [[[c ns] n]|err]; [|off_path].
  destruct (lister_Get h c n) as [lc0|e].
  - destruct (IsZero (lc_DeletionTimestamp lc0)) eqn:Hts; [off_path|].
    cbn zeta. destruct (deleter_Delete _ lc0) as [lc0' [derr0|]]; cbn [fst snd].
    + intros Hin.
      assert (lc = lc0 ∧ lc' = lc0' ∧ derr = derr0) as (-> & -> & ->).
      { pose proof (patchCondition_trace lc0 lc0'
                      (h ++ [ListerGet c n (inl lc0); DeleterDelete lc0 lc0' (Some derr0)]))
          as Hp.
        rewrite Forall_forall in Hp.
        decompose_list_elem_of; simplify_eq/=; [done|].
        match goal with H : _ ∈ _ |- _ => by apply Hp in H end. }
      set (h2 := h ++ _).
      pose proof (patchCondition_trace lc0 lc0' h2) as Hp.
      split; [by destruct (fst (patchCondition lc0 lc0' h2))|].
      split.
      { constructor; [done|]. constructor; [done|].
        eapply Forall_impl; [exact Hp|]. by intros []. }
      split.
      * intros Hsame. unfold patchCondition, Semantic_DeepEqual.
        rewrite bool_decide_eq_true_2 by done. cbn [ret fst snd].
        split; [done | by repeat constructor].
      * intros c0 n0 patch sub answer Hpatch.
        apply elem_of_cons in Hpatch as [?|Hpatch]; [done|].
        apply elem_of_cons in Hpatch as [?|Hpatch]; [done|].
        revert Hpatch. unfold patchCondition.
        repeat case_match; cbn [ret call fst snd]; intros Hpatch;
          decompose_list_elem_of; simplify_eq/=.
        all: by destruct (logicalclusters_Patch _ _ _ _ _).
    + intros Hin. exfalso.
      pose proof (finalizeWorkspace_calls lc0'
                    (h ++ [ListerGet c n (inl lc0); DeleterDelete lc0 lc0' None])) as Hf.
      rewrite Forall_forall in Hf.
      decompose_list_elem_of; simplify_eq/=.
      match goal with H : _ ∈ _ |- _ => by apply Hf in H end.
  - destruct (IsNotFound e); off_path.
Qed.

(** Property X4.  The LogicalCluster that a run of [process]
    persists is the copy the deleter worked on (with the conditions the
    deleter wrote), less the first deletion finalizer; it is sent to the
    logical cluster that object lives in.  The Update is the last call of
    the run and [process] returns what it answers. *)
Theorem process_persists_deleters_copy key h c ws answer :
  LogicalClusterUpdate c ws answer ∈ snd (process key h) ->
  ∃ lc lc' before after,
    snd (process key h) !! 1%nat = Some (DeleterDelete lc lc' None)
    ∧ lc_Finalizers lc' = before ++ LogicalClusterDeletionFinalizer :: after
    ∧ (LogicalClusterDeletionFinalizer ∉ before)
    ∧ ws = set_Finalizers lc' (before ++ after)
    ∧ c = lc_Cluster lc'
    ∧ last (snd (process key h)) = Some (LogicalClusterUpdate c ws answer)
    ∧ fst (process key h) = answer.
Proof.
  rewrite process_run.
  destruct (SplitMetaClusterNamespaceKey key) as [[[c0 ns] n]|err]; [|off_path].
  destruct (lister_Get h c0 n) as [lc|e].
  - destruct (IsZero (lc_DeletionTimestamp lc)) eqn:Hts; [off_path|].
    cbn zeta. destruct (deleter_Delete _ lc) as [lc' [derr|]]; cbn [fst snd].
    + intros Hin. exfalso.
      pose proof (patchCondition_trace lc lc'
                    (h ++ [ListerGet c0 n (inl lc); DeleterDelete lc lc' (Some derr)])) as Hp.
      rewrite Forall_forall in Hp.
      decompose_list_elem_of; simplify_eq/=.
      match goal with H : _ ∈ _ |- _ => by apply Hp in H end.
    + intros Hin. exists lc, lc'.
      set (h2 := h ++ _) in *.
      apply elem_of_cons in Hin as [?|Hin]; [done|].
      apply elem_of_cons in Hin as [?|Hin]; [done|].
      finalize_paths lc' h2; decompose_list_elem_of; simplify_eq/=.
      all: match goal with
           | H : finalizer_index _ = Some ?i |- _ =>
               destruct (finalizer_index_split _ _ H) as [Hfs Hnot];
               exists (take i (lc_Finalizers lc')), (drop (S i) (lc_Finalizers lc'))
           end.
      all: by repeat split.
  - destruct (IsNotFound e); off_path.
Qed.

End Process.

(** ** The worker, turn by turn *)

Section Turns.

Context {env : Env} {names : FinalizerNames}.

Lemma processNextWorkItem_shutdown h key :
  queue_Get h = (key, true) ->
  processNextWorkItem h = (false, [QueueGet key true]).
Proof.
  intros Hget. unfold processNextWorkItem. rewrite bind_run. cbn [call fst snd].
  by rewrite Hget.
Qed.

Lemma processNextWorkItem_turn h key :
  queue_Get h = (key, false) ->
  processNextWorkItem h
  = (true,
     QueueGet key false
     :: snd (process key (h ++ [QueueGet key false]))
     ++ settle_key key (fst (process key (h ++ [QueueGet key false])))).
Proof.
  intros Hget. unfold processNextWorkItem. rewrite bind_run. cbn [call fst snd].
  rewrite Hget. cbn [fst snd]. rewrite bind_run.
  destruct (process key (h ++ [QueueGet key false])) as [[err|] t]; cbn [fst snd settle_key].
  - by destruct (errors_As_ResourcesRemaining err).
  - done.
Qed.

(** Property X5.  A key with nothing to delete is forgotten in
    one turn, without a call of the deleter or of a client: a key that does
    not parse (the parse error goes to the error sink), a key whose
    LogicalCluster the lister does not find, and a key whose LogicalCluster
    has no deletion timestamp. *)
Theorem key_without_work_is_forgotten h key :
  queue_Get h = (key, false) ->
  match SplitMetaClusterNamespaceKey key with
  | inr err =>
      processNextWorkItem h
      = (true, [QueueGet key false; HandleError err; QueueForget key; QueueDone key])
  | inl (c, _, n) =>
      match lister_Get (h ++ [QueueGet key false]) c n with
      | inr e =>
          IsNotFound e = true ->
          processNextWorkItem h
          = (true, [QueueGet key false; ListerGet c n (inr e);
                    QueueForget key; QueueDone key])
      | inl lc =>
          IsZero (lc_DeletionTimestamp lc) = true ->
          processNextWorkItem h
          = (true, [QueueGet key false; ListerGet c n (inl lc);
                    QueueForget key; QueueDone key])
      end
  end.
Proof.
  intros Hget. rewrite (processNextWorkItem_turn h key Hget), process_run.
  destruct (SplitMetaClusterNamespaceKey key) as [[[c ns] n]|err]; [|done].
  destruct (lister_Get _ c n) as [lc|e]; by intros ->.
Qed.

(** Property X6.  When the lister fails with an error other than
    not-found, [process] reports the error to the sink and returns it as it
    is, without calling the deleter; the worker then settles the key as for
    any error, with a rate-limited requeue unless the error is a
    ResourcesRemainingError. *)
Theorem lister_error_is_retried h key c ns n e :
  queue_Get h = (key, false) ->
  SplitMetaClusterNamespaceKey key = inl (c, ns, n) ->
  lister_Get (h ++ [QueueGet key false]) c n = inr e ->
  IsNotFound e = false ->
  fst (process key (h ++ [QueueGet key false])) = Some e
  ∧ processNextWorkItem h
    = (true,
       QueueGet key false
       :: ListerGet c n (inr e)
       :: HandleError (Errorf "unable to retrieve logical cluster %v from store: %w"
                         [key] (Some e))
       :: settle_key key (Some e)).
Proof.
  intros Hget Hkey Hlister Hnf.
  rewrite (processNextWorkItem_turn h key Hget), process_run, Hkey, Hlister, Hnf.
  done.
Qed.

End Turns.

(** ** More on [finalizeWorkspace] *)

Section Finalization_runs.

Context {env : Env} {names : FinalizerNames}.

Ltac split_runs :=
  repeat match goal with
    | H : finalize_run _ _ _ |- _ => inversion H; clear H; subst
    | H : owner_passed _ _ |- _ => unfold owner_passed in H; cbn [lc_Owner set_Finalizers] in H
    | H : match lc_Owner ?ws with _ => _ end |- _ => destruct (lc_Owner ws) eqn:?
    | H : owner_run _ _ _ _ |- _ => inversion H; clear H; subst
    | H : delete_run _ _ _ _ _ |- _ => inversion H; clear H; subst
    end.

Ltac finalize_paths ws h :=
  let R := fresh "R" in
  pose proof (finalizeWorkspace_run ws h) as R;
  destruct (finalizeWorkspace ws h) as [? ?]; cbn [fst snd] in *;
  split_runs; simplify_eq/=.

Ltac decide_ifs :=
  unfold unless_NotFound in *; repeat (case_match; simplify_eq/=).

Lemma finalizer_index_None fs :
  finalizer_index fs = None ↔ LogicalClusterDeletionFinalizer ∉ fs.
Proof.
  induction fs as [|f fs IH]; cbn [finalizer_index].
  - split; [intros _; apply not_elem_of_nil | done].
  - rewrite not_elem_of_cons.
    destruct (String.eqb_spec f LogicalClusterDeletionFinalizer) as [->|Hne].
    + split; [done | by intros [? _]].
    + destruct (finalizer_index fs); split; try done.
      * intros [_ Hnot]. by apply IH in Hnot.
      * intros _. split; [congruence | by apply IH].
Qed.

(** Property X7.  Without the deletion finalizer on the
    LogicalCluster, [finalizeWorkspace] returns nil and calls nothing, and
    that is the only run without a call.  With the finalizer, a return of
    nil means that the Update of the LogicalCluster was issued as the last
    call and answered nil. *)
Theorem finalize_nil_means_persisted ws h :
  (LogicalClusterDeletionFinalizer ∉ lc_Finalizers ws ↔ snd (finalizeWorkspace ws h) = [])
  ∧ (LogicalClusterDeletionFinalizer ∉ lc_Finalizers ws -> fst (finalizeWorkspace ws h) = None)
  ∧ (LogicalClusterDeletionFinalizer ∈ lc_Finalizers ws ->
     fst (finalizeWorkspace ws h) = None ->
     ∃ c ws', last (snd (finalizeWorkspace ws h)) = Some (LogicalClusterUpdate c ws' None)).
Proof.
  split; [split|split].
  - intros Hnot%finalizer_index_None. finalize_paths ws h; congruence.
  - intros Hnil. apply finalizer_index_None.
    finalize_paths ws h; try done.
    all: by match goal with H : _ ++ [_] = [] |- _ => apply app_nil in H as [_ ?] end.
  - intros Hnot%finalizer_index_None. finalize_paths ws h; congruence.
  - intros Hin Hnil.
    assert (finalizer_index (lc_Finalizers ws) ≠ None) as Hsome
      by (by rewrite finalizer_index_None; intros ?).
    finalize_paths ws h; decide_ifs; try done.
    all: by eexists _, _.
Qed.

(** Property X8.  Finalization is not repeated: for a
    LogicalCluster whose finalizers are pairwise distinct, the object that
    [finalizeWorkspace] persists holds the deletion finalizer no more, and a
    run of [finalizeWorkspace] on it returns nil and calls nothing. *)
Theorem finalize_again_does_nothing ws h c ws' answer h' :
  NoDup (lc_Finalizers ws) ->
  LogicalClusterUpdate c ws' answer ∈ snd (finalizeWorkspace ws h) ->
  (LogicalClusterDeletionFinalizer ∉ lc_Finalizers ws')
  ∧ finalizeWorkspace ws' h' = (None, []).
Proof.
  intros Hnodup Hupd.
  assert (LogicalClusterDeletionFinalizer ∉ lc_Finalizers ws') as Hgone.
  { finalize_paths ws h; decompose_list_elem_of; simplify_eq/=.
    all: match goal with
         | H : finalizer_index _ = Some ?i |- _ =>
             destruct (finalizer_index_split _ _ H) as [Hfs Hnot];
             rewrite Hfs in Hnodup
         end.
    all: apply NoDup_app in Hnodup as (_ & _ & Hnodup);
      apply NoDup_cons in Hnodup as [Hafter _];
      unfold remove_at; rewrite elem_of_app; by intros [?|?]. }
  split; [done|].
  apply finalizer_index_None in Hgone.
  unfold finalizeWorkspace. by rewrite Hgone.
Qed.

(** Property X9.  A run of [finalizeWorkspace] makes its calls in
    one order and each at most once: the cleanup of the ClusterRoles, the
    cleanup of the ClusterRoleBindings, the Get, the Update and the Delete
    of the owner, the Update of the LogicalCluster.  It makes no other call,
    and the cleanups and the Update go to the logical cluster of the
    object. *)
Theorem finalize_calls_in_order ws h :
  StronglySorted lt (finalize_phase <$> snd (finalizeWorkspace ws h))
  ∧ Forall (fun ev => is_finalize_call ev = true) (snd (finalizeWorkspace ws h))
  ∧ (∀ c e, ClusterRolesDeleteCollection c e ∈ snd (finalizeWorkspace ws h) ->
            c = lc_Cluster ws)
  ∧ (∀ c e, ClusterRoleBindingsDeleteCollection c e ∈ snd (finalizeWorkspace ws h) ->
            c = lc_Cluster ws)
  ∧ (∀ c ws' e, LogicalClusterUpdate c ws' e ∈ snd (finalizeWorkspace ws h) ->
                c = lc_Cluster ws).
Proof.
  split; [|split; [|split; [|split]]].
  - finalize_paths ws h; repeat constructor.
  - finalize_paths ws h; by repeat constructor.
  - intros c e Hin. finalize_paths ws h; decompose_list_elem_of; by simplify_eq/=.
  - intros c e Hin. finalize_paths ws h; decompose_list_elem_of; by simplify_eq/=.
  - intros c ws' e Hin. finalize_paths ws h; decompose_list_elem_of; by simplify_eq/=.
Qed.

(** Property X10.  Every call for the owner goes to the cluster,
    the group-version-resource and the namespace of the owner reference of
    the LogicalCluster; without an owner reference no such call is made. *)
Theorem owner_calls_go_to_the_owner ws h ev :
  ev ∈ snd (finalizeWorkspace ws h) ->
  is_owner_call ev = true ->
  ∃ o, lc_Owner ws = Some o
       ∧ owner_call_target ev = Some (owner_Cluster o, owner_gvr o, owner_Namespace o).
Proof.
  intros Hin Hcall.
  finalize_paths ws h; decompose_list_elem_of; simplify_eq/=.
  all: by eexists.
Qed.

(** Property X11.  The error that [finalizeWorkspace] returns
    for a failed step wraps the error of the collaborator, so that the
    worker and the callers see through it: it is a ResourcesRemainingError,
    with the same estimate, or a not-found error, exactly when the cause
    is. *)
Theorem finalize_error_keeps_cause ws h ev cause :
  ev ∈ snd (finalizeWorkspace ws h) ->
  failed_step ev = Some cause ->
  ∃ err, fst (finalizeWorkspace ws h) = Some err
         ∧ errors_As_ResourcesRemaining err = errors_As_ResourcesRemaining cause
         ∧ IsNotFound err = IsNotFound cause.
Proof.
  intros Hin Hfail.
  finalize_paths ws h; decompose_list_elem_of; simplify_eq/=; decide_ifs.
  all: by eexists.
Qed.

End Finalization_runs.

(** ** The owner's resource, the patch and the wait *)

Section Details.

Context {env : Env}.

Lemma cut_slash_Some s a b :
  Go.cut_slash s = Some (a, b) ->
  s = a +:+ "/" +:+ b ∧ "/"%char ∉ list_ascii_of_string a.
Proof.
  revert a. induction s as [|ch s IH]; intros a; cbn [Go.cut_slash]; [done|].
  destruct (Ascii.eqb_spec ch "/"%char) as [->|Hne].
  - intros [= <- <-]. split; [done | apply not_elem_of_nil].
  - destruct (Go.cut_slash s) as [[a' b']|]; [|done].
    intros [= <- <-]. destruct (IH a' eq_refl) as [-> Hnot].
    split; [done|]. cbn. rewrite not_elem_of_cons. split; [congruence | done].
Qed.

Lemma cut_slash_None s :
  Go.cut_slash s = None ↔ "/"%char ∉ list_ascii_of_string s.
Proof.
  induction s as [|ch s IH]; cbn [Go.cut_slash list_ascii_of_string].
  - split; [intros _; apply not_elem_of_nil | done].
  - rewrite not_elem_of_cons.
    destruct (Ascii.eqb_spec ch "/"%char) as [->|Hne].
    + split; [done | by intros [? _]].
    + destruct (Go.cut_slash s) as [[a b]|]; split; try done.
      * intros [_ Hnot]. by apply IH in Hnot.
      * intros _. split; [congruence | by apply IH].
Qed.

Lemma cut_slash_app a b :
  "/"%char ∉ list_ascii_of_string a ->
  Go.cut_slash (a +:+ "/" +:+ b) = Some (a, b).
Proof.
  change ("/" +:+ b) with (String "/"%char b).
  induction a as [|ch a IH]; cbn [list_ascii_of_string]; [done|].
  rewrite not_elem_of_cons. intros [Hne Hnot].
  change (String ch a +:+ String "/"%char b) with (String ch (a +:+ String "/"%char b)).
  cbn [Go.cut_slash].
  destruct (Ascii.eqb_spec ch "/"%char) as [->|_]; [done|].
  by rewrite (IH Hnot).
Qed.

(** Property X12.  The owner is addressed by the resource of the
    reference and by its APIVersion cut at the first slash: [group/version]
    gives that group and version (a version may hold further slashes), an
    APIVersion without a slash is the version of the core group, whose name
    is empty. *)
Theorem owner_gvr_of_api_version o :
  gvr_Resource (owner_gvr o) = owner_Resource o
  ∧ (∀ g v, "/"%char ∉ list_ascii_of_string g ->
            owner_APIVersion o = g +:+ "/" +:+ v ->
            gvr_Group (owner_gvr o) = g ∧ gvr_Version (owner_gvr o) = v)
  ∧ ("/"%char ∉ list_ascii_of_string (owner_APIVersion o) ->
     gvr_Group (owner_gvr o) = "" ∧ gvr_Version (owner_gvr o) = owner_APIVersion o)
  ∧ (gvr_Group (owner_gvr o) ≠ "" ->
     owner_APIVersion o = gvr_Group (owner_gvr o) +:+ "/" +:+ gvr_Version (owner_gvr o)).
Proof.
  unfold owner_gvr, Go.SplitN_slash_2. split; [|split; [|split]].
  - by destruct (Go.cut_slash (owner_APIVersion o)) as [[a b]|].
  - intros g v Hg ->. by rewrite cut_slash_app.
  - intros Hnone%cut_slash_None. by rewrite Hnone.
  - destruct (Go.cut_slash (owner_APIVersion o)) as [[a b]|] eqn:Hcut; [|done].
    intros _. by apply cut_slash_Some in Hcut as [-> _].
Qed.

(** Property X13.  A Patch that [patchCondition] issues goes to
    the logical cluster and the name of the new object.  Its body is the
    merge patch from the old conditions alone to the new conditions together
    with the UID and the resource version of the old object, which so stand
    in the patch as preconditions.  It is the only call of the run, and
    [patchCondition] returns what it answers. *)
Theorem patch_carries_preconditions old new h c n patch sub answer :
  LogicalClusterPatch c n patch sub answer ∈ snd (patchCondition old new h) ->
  ∃ oldData newData,
    json_Marshal {| doc_UID := ""; doc_ResourceVersion := "";
                    doc_Conditions := lc_Conditions old |} = inl oldData
    ∧ json_Marshal {| doc_UID := lc_UID old; doc_ResourceVersion := lc_ResourceVersion old;
                      doc_Conditions := lc_Conditions new |} = inl newData
    ∧ jsonpatch_CreateMergePatch oldData newData = inl patch
    ∧ (c, n) = (lc_Cluster new, lc_Name new)
    ∧ patchCondition old new h = (answer, [LogicalClusterPatch c n patch sub answer]).
Proof.
  unfold patchCondition.
  destruct (Semantic_DeepEqual _ _); [by intros ?%elem_of_nil|].
  destruct (json_Marshal _) as [oldData|?]; [|by intros ?%elem_of_nil].
  destruct (json_Marshal _) as [newData|?]; [|by intros ?%elem_of_nil].
  destruct (jsonpatch_CreateMergePatch oldData newData) as [p|?] eqn:Hp;
    [|by intros ?%elem_of_nil].
  cbn [call fst snd]. intros Hin. decompose_list_elem_of. simplify_eq.
  by exists oldData, newData.
Qed.

(** Property X14.  Changed conditions are not dropped in
    silence: when the conditions differ, [patchCondition] returns nil only
    after a Patch of the status that answered nil; if an encoding step
    fails, it calls nothing and returns an error that wraps the failure. *)
Theorem changed_conditions_patched_or_reported old new h :
  lc_Conditions old ≠ lc_Conditions new ->
  (∃ patch answer,
      patchCondition old new h
      = (answer, [LogicalClusterPatch (lc_Cluster new) (lc_Name new) patch "status" answer]))
  ∨ (∃ format subject cause,
      patchCondition old new h = (Some (Errorf format [subject] (Some cause)), [])).
Proof.
  intros Hdiff. unfold patchCondition, Semantic_DeepEqual.
  rewrite bool_decide_eq_false_2 by done.
  destruct (json_Marshal _) as [oldData|?]; [|right; by eexists _, _, _].
  destruct (json_Marshal _) as [newData|?]; [|right; by eexists _, _, _].
  destruct (jsonpatch_CreateMergePatch oldData newData) as [p|?];
    [|right; by eexists _, _, _].
  left. by eexists _, _.
Qed.

(** Property X15.  As long as the product fits a Duration, that
    is for estimates from -18446744075 to 18446744071, the wait is
    [estimate/2 + 1] seconds with the division truncated toward zero; it
    grows with the estimate and is positive exactly from the estimate -1
    on, so that an estimate that is not negative waits a second at least. *)
Theorem requeue_duration_in_range (e1 e2 : Z) :
  (-18446744075 ≤ e1)%Z -> (e1 ≤ e2)%Z -> (e2 ≤ 18446744071)%Z ->
  requeue_duration e1 = ((e1 ÷ 2 + 1) * Go.Second)%Z
  ∧ (requeue_duration e1 ≤ requeue_duration e2)%Z
  ∧ ((0 < requeue_duration e1)%Z ↔ (-1 ≤ e1)%Z)
  ∧ ((0 ≤ e1)%Z -> (Go.Second ≤ requeue_duration e1)%Z).
Proof.
  intros Hlow Hle Hhigh.
  assert (∀ e : Z, (-18446744075 ≤ e ≤ 18446744071)%Z ->
            requeue_duration e = ((e ÷ 2 + 1) * Go.Second)%Z) as Hexact.
  { intros e He. unfold requeue_duration, requeue_seconds, Go.wrap64, Go.Second.
    assert (-9223372037 ≤ e ÷ 2 ≤ 9223372035)%Z as Hq
      by (Z.to_euclidean_division_equations; lia).
    rewrite (Z.mod_small (e ÷ 2 + 1 + 2 ^ 63)) by lia.
    rewrite Z.mod_small by lia. lia. }
  rewrite (Hexact e1), (Hexact e2) by lia. unfold Go.Second.
  split; [done|].
  split; [Z.to_euclidean_division_equations; lia|].
  split; [Z.to_euclidean_division_equations; lia|].
  intros ?. Z.to_euclidean_division_equations; lia.
Qed.

End Details.

(** ** The worker loop *)

Section Loop_runs.

Context {env : Env} {names : FinalizerNames}.

Lemma count_app (p : Event -> bool) (t1 t2 : Trace) :
  count p (t1 ++ t2) = (count p t1 + count p t2)%nat.
Proof. unfold count. by rewrite filter_app, length_app. Qed.

Lemma count_none (p : Event -> bool) (t : Trace) :
  Forall (fun ev => p ev = false) t -> count p t = 0%nat.
Proof. intros Hnone. unfold count. by rewrite filter_none. Qed.

(** [process] does not touch the queue. *)
Lemma process_no_queue_calls key h :
  Forall (fun ev => is_QueueGet ev = false ∧ is_queue_write ev = false)
    (snd (process key h)).
Proof.
  assert (∀ ws h', Forall (fun ev => is_QueueGet ev = false ∧ is_queue_write ev = false)
                     (snd (finalizeWorkspace ws h'))) as Hfinalize.
  { intros ws h'. eapply Forall_impl; [apply finalizeWorkspace_calls|]. by intros []. }
  assert (∀ old new h', Forall (fun ev => is_QueueGet ev = false ∧ is_queue_write ev = false)
                          (snd (patchCondition old new h'))) as Hpatch.
  { intros old new h'. eapply Forall_impl; [apply patchCondition_trace|]. by intros []. }
  rewrite process_run.
  destruct (SplitMetaClusterNamespaceKey key) as [[[c ns] n]|err]; [|by repeat constructor].
  destruct (lister_Get h c n) as [lc|e].
  - destruct (IsZero (lc_DeletionTimestamp lc)); [by repeat constructor|].
    cbn zeta. destruct (deleter_Delete _ lc) as [lc' [derr|]]; cbn [fst snd].
    + constructor; [done|]. constructor; [done|]. apply Hpatch.
    + constructor; [done|]. constructor; [done|]. apply Hfinalize.
  - destruct (IsNotFound e); by repeat constructor.
Qed.

Lemma startWorker_turn fuel h :
  startWorker (S fuel) h
  = (tt,
     snd (processNextWorkItem h)
     ++ (if snd (queue_Get h) then []
         else snd (startWorker fuel (h ++ snd (processNextWorkItem h))))).
Proof.
  cbn [startWorker]. rewrite bind_run.
  destruct (queue_Get h) as [key quit] eqn:Hget. destruct quit; cbn [snd].
  - rewrite (processNextWorkItem_shutdown h key Hget). done.
  - rewrite (processNextWorkItem_turn h key Hget). cbn [fst snd].
    by destruct (startWorker fuel _) as [[] t].
Qed.

(** In one turn of the worker a key is taken as often as it is done. *)
Lemma turn_balanced h key :
  count (is_done key) (snd (processNextWorkItem h))
  = count (is_taken key) (snd (processNextWorkItem h)).
Proof.
  destruct (queue_Get h) as [k quit] eqn:Hget. destruct quit.
  - by rewrite (processNextWorkItem_shutdown h k Hget).
  - rewrite (processNextWorkItem_turn h k Hget). cbn [snd].
    change (QueueGet k false :: ?t) with ([QueueGet k false] ++ t).
    rewrite !count_app.
    pose proof (process_no_queue_calls k (h ++ [QueueGet k false])) as Hquiet.
    rewrite (count_none (is_done key) (snd (process _ _))), (count_none (is_taken key)
               (snd (process _ _))).
    2,3: eapply Forall_impl; [exact Hquiet|]; by intros [] [? ?].
    unfold settle_key, count.
    destruct (fst (process k _)) as [err|];
      [destruct (errors_As_ResourcesRemaining err)|];
      cbn; by destruct (String.eqb k key).
Qed.

(** Property X16.  The worker hands back every key it takes: at
    the end of each turn of the loop, and so after any number of turns,
    [Done] was called for a key as often as [Get] handed that key out. *)
Theorem worker_returns_every_key fuel h key :
  count (is_done key) (snd (startWorker fuel h))
  = count (is_taken key) (snd (startWorker fuel h)).
Proof.
  revert h. induction fuel as [|fuel IH]; intros h; [done|].
  rewrite startWorker_turn. cbn [snd]. rewrite !count_app, turn_balanced.
  f_equal. destruct (snd (queue_Get h)); [done | apply IH].
Qed.

(** Property X17.  Once the queue reports its shutdown the
    worker stops: that [Get] is the last call of the loop, it is not
    followed by [Done], and more turns allowed change nothing. *)
Theorem worker_stops_at_shutdown fuel h key :
  QueueGet key true ∈ snd (startWorker fuel h) ->
  last (snd (startWorker fuel h)) = Some (QueueGet key true)
  ∧ count is_shutdown (snd (startWorker fuel h)) = 1%nat
  ∧ ∀ more, startWorker (fuel + more) h = startWorker fuel h.
Proof.
  revert h. induction fuel as [|fuel IH]; intros h; [by intros ?%elem_of_nil|].
  assert (∀ more, startWorker (S fuel + more) h
                  = (tt, snd (processNextWorkItem h)
                         ++ (if snd (queue_Get h) then []
                             else snd (startWorker (fuel + more)
                                         (h ++ snd (processNextWorkItem h))))))
    as Hlonger by (intros more; apply startWorker_turn).
  rewrite startWorker_turn. cbn [snd].
  destruct (queue_Get h) as [k quit] eqn:Hget. destruct quit; cbn [snd] in *.
  - rewrite (processNextWorkItem_shutdown h k Hget) in *. cbn [snd app] in *.
    intros Hin. decompose_list_elem_of. simplify_eq.
    split; [done|]. split; [done|]. intros more. by rewrite Hlonger.
  - rewrite (processNextWorkItem_turn h k Hget) in *. cbn [snd] in *.
    set (turn := QueueGet k false :: _) in *.
    assert (Forall (fun ev => is_shutdown ev = false) turn) as Hturn.
    { constructor; [done|]. apply Forall_app. split.
      - eapply Forall_impl; [apply process_no_queue_calls|]. by intros [] [? ?].
      - unfold settle_key. repeat case_match; by repeat constructor. }
    intros Hin. apply elem_of_app in Hin as [Hin|Hin].
    { rewrite Forall_forall in Hturn. apply Hturn in Hin. done. }
    destruct (IH _ Hin) as (Hlast & Hcount & Hmore).
    split; [|split].
    + by rewrite last_app, Hlast.
    + by rewrite count_app, (count_none _ _ Hturn), Hcount.
    + intros more. by rewrite Hlonger, Hmore.
Qed.

End Loop_runs.

(** ** More runs of the scenario *)

Section More_runs.

Import Scenario Cases.

Lemma process_acts_on_deleting_only_witness :
  ∃ c ns n lc lc' e,
    SplitMetaClusterNamespaceKey (Env:=calm) key = inl (c, ns, n)
    ∧ snd (process (env:=calm) (names:=names) key []) !! 0%nat = Some (ListerGet c n (inl lc))
    ∧ IsZero (lc_DeletionTimestamp lc) = false
    ∧ snd (process (env:=calm) (names:=names) key []) !! 1%nat
      = Some (DeleterDelete lc lc' e).
Proof.
  apply (process_acts_on_deleting_only (env:=calm) (names:=names) key []
           (DeleterDelete ws ws None)).
  - vm_compute. in_trace.
  - reflexivity.
Defined.

Lemma finalizer_kept_while_content_remains_witness :
  (∃ lc lc', snd (process (env:=calm) (names:=names) key []) !! 1%nat
             = Some (DeleterDelete lc lc' None))
  ∧ Forall (fun ev => is_LogicalClusterPatch ev = false)
      (snd (process (env:=calm) (names:=names) key [])).
Proof.
  apply (finalizer_kept_while_content_remains (env:=calm) (names:=names) key []
           (ClusterRolesDeleteCollection "root:org:ws" None)).
  - vm_compute. in_trace.
  - reflexivity.
Defined.

Lemma deleter_failure_surfaces_witness :
  fst (process (env:=starved) (names:=names) key []) = Some conflict.
Proof.
  destruct (deleter_failure_surfaces (env:=starved) (names:=names) key []
              ws (set_Conditions ws [waiting])
              (ResourcesRemainingError 9 "resources remain"))
    as (_ & _ & _ & Hpatch).
  - vm_compute. in_trace.
  - apply (Hpatch "root:org:ws" "cluster" "{}" "status" (Some conflict)).
    vm_compute. in_trace.
Defined.

Lemma process_persists_deleters_copy_witness :
  ∃ lc lc' before after,
    snd (process (env:=calm) (names:=names) key []) !! 1%nat
    = Some (DeleterDelete lc lc' None)
    ∧ lc_Finalizers lc' = before ++ "core.kcp.io/logicalcluster-deletion" :: after
    ∧ ("core.kcp.io/logicalcluster-deletion" ∉ before)
    ∧ cluster ["a"; "b"] (Some owner) = set_Finalizers lc' (before ++ after)
    ∧ "root:org:ws" = lc_Cluster lc'
    ∧ last (snd (process (env:=calm) (names:=names) key []))
      = Some (LogicalClusterUpdate "root:org:ws" (cluster ["a"; "b"] (Some owner)) None)
    ∧ fst (process (env:=calm) (names:=names) key []) = None.
Proof.
  apply (process_persists_deleters_copy (env:=calm) (names:=names) key []).
  vm_compute. in_trace.
Defined.

Lemma key_without_work_is_forgotten_witness :
  processNextWorkItem (env:=forgotten) (names:=names) []
  = (true, [QueueGet key false; ListerGet "root:org:ws" "cluster" (inr notFound);
            QueueForget key; QueueDone key]).
Proof.
  apply (key_without_work_is_forgotten (env:=forgotten) (names:=names) [] key eq_refl).
  reflexivity.
Defined.

Lemma lister_error_is_retried_witness :
  fst (process (env:=unreachable) (names:=names) key [QueueGet key false]) = Some conflict
  ∧ queue_writes (snd (processNextWorkItem (env:=unreachable) (names:=names) []))
    = [QueueAddRateLimited key; QueueDone key].
Proof.
  destruct (lister_error_is_retried (env:=unreachable) (names:=names)
              [] key "root:org:ws" "" "cluster" conflict) as [Hprocess Hturn];
    try reflexivity.
  split; [exact Hprocess|]. rewrite Hturn. reflexivity.
Defined.

Lemma finalize_again_does_nothing_witness :
  finalizeWorkspace (env:=calm) (names:=names) (cluster ["a"; "b"] (Some owner)) []
  = (None, []).
Proof.
  apply (finalize_again_does_nothing (env:=calm) (names:=names) ws []
           "root:org:ws" (cluster ["a"; "b"] (Some owner)) None).
  - apply (bool_decide_unpack _). vm_compute. exact I.
  - vm_compute. in_trace.
Defined.

Lemma owner_calls_go_to_the_owner_witness :
  ∃ o, lc_Owner ws = Some o
       ∧ Some ("shardB", gvr, "")
         = Some (owner_Cluster o, owner_gvr o, owner_Namespace o).
Proof.
  apply (owner_calls_go_to_the_owner (env:=calm) (names:=names) ws []
           (OwnerDelete "shardB" gvr "" "w1" "abc" None)).
  - vm_compute. in_trace.
  - reflexivity.
Defined.

Lemma finalize_error_keeps_cause_witness :
  ∃ err, fst (finalizeWorkspace (env:=blocked) (names:=names) ws []) = Some err
         ∧ errors_As_ResourcesRemaining err = None
         ∧ IsNotFound err = false.
Proof.
  apply (finalize_error_keeps_cause (env:=blocked) (names:=names) ws []
           (ClusterRoleBindingsDeleteCollection "root:org:ws" (Some conflict)) conflict).
  - vm_compute. in_trace.
  - reflexivity.
Defined.

Lemma patch_carries_preconditions_witness :
  patchCondition (env:=draining) ws (set_Conditions ws [waiting]) []
  = (None, [LogicalClusterPatch "root:org:ws" "cluster" "{}" "status" None]).
Proof.
  destruct (patch_carries_preconditions (env:=draining) ws (set_Conditions ws [waiting]) []
              "root:org:ws" "cluster" "{}" "status" None)
    as (oldData & newData & _ & _ & _ & _ & Hrun).
  - vm_compute. in_trace.
  - exact Hrun.
Defined.

Lemma changed_conditions_patched_or_reported_witness :
  (∃ patch answer,
      patchCondition (env:=starved) ws (set_Conditions ws [waiting]) []
      = (answer, [LogicalClusterPatch "root:org:ws" "cluster" patch "status" answer]))
  ∨ (∃ format subject cause,
      patchCondition (env:=starved) ws (set_Conditions ws [waiting]) []
      = (Some (Errorf format [subject] (Some cause)), [])).
Proof.
  apply (changed_conditions_patched_or_reported (env:=starved)
           ws (set_Conditions ws [waiting]) []).
  vm_compute. discriminate.
Defined.

Lemma requeue_duration_in_range_witness :
  requeue_duration (-3) = 0%Z
  ∧ (requeue_duration (-3) ≤ requeue_duration 9)%Z.
Proof.
  destruct (requeue_duration_in_range (-3) 9) as (Hexact & Hle & _); [lia..|].
  split; [rewrite Hexact; reflexivity | exact Hle].
Defined.

Lemma worker_stops_at_shutdown_witness :
  last (snd (startWorker (env:=closing) (names:=names) 2 [])) = Some (QueueGet "" true)
  ∧ count is_shutdown (snd (startWorker (env:=closing) (names:=names) 2 [])) = 1%nat
  ∧ ∀ more, startWorker (env:=closing) (names:=names) (2 + more) []
            = startWorker (env:=closing) (names:=names) 2 [].
Proof.
  apply (worker_stops_at_shutdown (env:=closing) (names:=names) 2 [] "").
  vm_compute. in_trace.
Defined.

End More_runs.
